(** * CycloneDX webpack plugin: the SBOM generator

    A shallow embedding of [src/webpack-plugin/bomGenerator.js]: the
    identity resolver [toPackageURL], the lookup [findDependencyByRef],
    the relation builder [buildBom] with its driver [resolveComponents],
    and the root detector [findRoots].

    JavaScript objects that the code shares and mutates ([Dependency]
    objects are pushed to the bom and updated afterwards) live in an
    explicit heap and are named by their address. Exceptions are explicit:
    every operation that can throw returns a [result]. *)

From Stdlib Require Import String Ascii List Arith Bool Lia DecimalString.
From stdpp Require Import base option list.
Import ListNotations.

Local Open Scope string_scope.
Local Open Scope list_scope.

(** ** JavaScript values *)

Abbreviation addr := nat.

(** The values that flow through the variables [dr] and [dd] of
    [buildBom]: [undefined], a number, a string primitive or a reference
    to a heap object. *)
Inductive value : Type :=
  | VUndefined
  | VNumber (n : nat)
  | VString (s : string)
  | VObject (a : addr).

Definition value_eqb (v w : value) : bool :=
  match v, w with
  | VUndefined, VUndefined => true
  | VNumber n, VNumber m => Nat.eqb n m
  | VString s, VString t => String.eqb s t
  | VObject a, VObject b => Nat.eqb a b
  | _, _ => false
  end.

(** [ToBoolean]. *)
Definition truthy (v : value) : bool :=
  match v with
  | VUndefined => false
  | VNumber n => negb (Nat.eqb n 0)
  | VString s => negb (String.eqb s EmptyString)
  | VObject _ => true
  end.

(** A field that holds a string or is [undefined]. *)
Definition to_value (o : option string) : value :=
  match o with
  | Some s => VString s
  | None => VUndefined
  end.

Definition truthy_str (o : option string) : bool := truthy (to_value o).

(** [String(x)] for a string-or-undefined, as [+] applies it. *)
Definition to_display (o : option string) : string :=
  match o with
  | Some s => s
  | None => "undefined"
  end.

(** [x === y] on strings-or-undefined; [Array.prototype.includes] compares
    the same way on these values. *)
Definition ref_eqb (x y : option string) : bool := value_eqb (to_value x) (to_value y).

Fixpoint includes (l : list (option string)) (x : option string) : bool :=
  match l with
  | [] => false
  | y :: l' => ref_eqb y x || includes l' x
  end.

(** Property read [s.p] on a string primitive [s]: its own properties are
    [length] and the indices; the methods of [String.prototype] are not
    values of this model, and every other name reads [undefined]. *)
Definition index_key (i : nat) : string := NilZero.string_of_uint (Nat.to_uint i).

Definition is_index_key (s p : string) : bool :=
  existsb (fun i => String.eqb p (index_key i)) (seq 0 (String.length s)).

Definition string_get (s p : string) : value :=
  if String.eqb p "length" then VNumber (String.length s)
  else if is_index_key s p then
    match NilZero.uint_of_string p with
    | Some u => match String.get (Nat.of_uint u) s with
                | Some c => VString (String c EmptyString)
                | None => VUndefined
                end
    | None => VUndefined
    end
  else VUndefined.

(** The keys a [for (let d in array)] loop enumerates: the indices of the
    array, as strings. *)
Definition for_in_keys {A : Type} (l : list A) : list string :=
  map index_key (seq 0 (length l)).

(** ** Exceptions *)

Inductive result (A : Type) : Type :=
  | Ok (a : A)
  | Throw (err : string).

Arguments Ok {A} a.
Arguments Throw {A} err.

Definition bind {A B : Type} (r : result A) (k : A -> result B) : result B :=
  match r with
  | Ok a => k a
  | Throw e => Throw e
  end.

Notation "'do' x <- r ; k" := (bind r (fun x => k))
  (at level 10, x name, r at level 100, k at level 200).

(** ** Data model *)

(** A parsed package descriptor. [fields] stands for the keys of
    [package.json] other than the three [toPackageURL] reads. *)
Record Package : Type := {
  name : option string;
  version : option string;
  scope : option string;
  fields : list (string * string)
}.

(** What [readPkgUp] resolves to when a descriptor is found. *)
Record PkgUp : Type := {
  package : Package;
  path : string
}.

(** A webpack stats module: [moduleData.issuer.resource] is the requester
    and [moduleData.resource] the dependency. *)
Record Issuer : Type := {
  issuer_resource : option string
}.

Record ModuleData : Type := {
  issuer : option Issuer;
  resource : option string
}.

(** [@cyclonedx/bom]'s [Component], reduced to the descriptor it was built
    from and its [bomRef]. *)
Record Component : Type := {
  component_pkg : Package;
  bomRef : option string
}.

(** [@cyclonedx/bom]'s [Dependency]: [new Dependency(ref)] stores its
    argument in [_ref] and leaves [_dependencies] undefined. *)
Record Dependency : Type := {
  _ref : option string;
  _dependencies : option (list addr)
}.

Record Tool : Type := {
  tool_vendor : string;
  tool_name : string;
  tool_version : string
}.

Record Metadata : Type := {
  tools : list Tool
}.

(** The bom: [addComponent] and [addDependency] push on these arrays. *)
Record Bom : Type := {
  metadata : option Metadata;
  components : list Component;
  dependencies : list addr
}.

(** The mutable world of one [buildBom] run. *)
Record State : Type := {
  bom : Bom;
  heap : list Dependency;
  bomRefLookup : list (option string);
  console : list string
}.

Definition set_bom (st : State) (b : Bom) : State :=
  {| bom := b; heap := heap st; bomRefLookup := bomRefLookup st; console := console st |}.

Definition set_heap (st : State) (h : list Dependency) : State :=
  {| bom := bom st; heap := h; bomRefLookup := bomRefLookup st; console := console st |}.

Definition set_bomRefLookup (st : State) (l : list (option string)) : State :=
  {| bom := bom st; heap := heap st; bomRefLookup := l; console := console st |}.

Definition console_log (msg : string) (st : State) : State :=
  {| bom := bom st; heap := heap st; bomRefLookup := bomRefLookup st;
     console := console st ++ [msg] |}.

Definition addComponent (c : Component) (st : State) : State :=
  set_bom st {| metadata := metadata (bom st);
                components := components (bom st) ++ [c];
                dependencies := dependencies (bom st) |}.

Definition addDependency (a : addr) (st : State) : State :=
  set_bom st {| metadata := metadata (bom st);
                components := components (bom st);
                dependencies := dependencies (bom st) ++ [a] |}.

(** [new Dependency(ref)]: allocates the object and returns its address. *)
Definition new_Dependency (ref : option string) (st : State) : addr * State :=
  (length (heap st),
   set_heap st (heap st ++ [{| _ref := ref; _dependencies := None |}])).

(** ** findDependencyByRef (lines 134-141)

    The loop is a [for ... in]: [d] ranges over the index keys of
    [bom.dependencies], and [d.ref] is a property read on a string. *)
Fixpoint findDependencyByRef_loop (keys : list string) (ref : option string) : value :=
  match keys with
  | [] => VUndefined
  | d :: keys' =>
      if truthy (string_get d "ref") && value_eqb (string_get d "ref") (to_value ref)
      then VString d
      else findDependencyByRef_loop keys' ref
  end.

Definition findDependencyByRef (b : Bom) (ref : option string) : value :=
  findDependencyByRef_loop (for_in_keys (dependencies b)) ref.

(** ** The filter of lines 52-61 *)

(** [/^ignored|^external/g.test(s)] on a regular expression whose
    [lastIndex] is [lastIndex]: the match is attempted at [lastIndex] only
    forward, [^] matches at position 0 only, a success moves [lastIndex]
    past the match and a failure resets it. *)
Definition ignoredMatcher_test (lastIndex : nat) (s : string) : bool * nat :=
  if Nat.eqb lastIndex 0 then
    if String.prefix "ignored" s then (true, 7)
    else if String.prefix "external" s then (true, 8)
    else (false, 0)
  else (false, 0).

(** Lines 52-61: the requester and the dependency path of a module that is
    not skipped. The regular expression is created afresh for each
    module, and tested twice, both times on the requester. *)
Definition filterModule (moduleData : ModuleData) : option (string * string) :=
  match issuer moduleData with
  | None => None
  | Some iss =>
      if negb (truthy_str (resource moduleData)) then None
      else
        match issuer_resource iss, resource moduleData with
        | Some requester, Some dependency =>
            if negb (truthy (VString requester)) then None
            else if negb (truthy (VString dependency)) then None
            else
              let '(m1, lastIndex) := ignoredMatcher_test 0 requester in
              if m1 then None
              else
                let '(m2, _) := ignoredMatcher_test lastIndex requester in
                if m2 then None else Some (requester, dependency)
        | _, _ => None
        end
  end.

(** ** The external collaborators

    [PackageURL_toString type namespace name version] is
    [new PackageURL(type, namespace, name, version, null, null).toString()]
    of [packageurl-js]; [readPkgUp cwd] is [await readPkgUp({cwd})], which
    throws, resolves to [undefined] or resolves to a descriptor and its
    path; [Component_constructor pkg] is [new Component(pkg)] of
    [@cyclonedx/bom], which throws or builds a component, of which the
    model keeps the [bomRef]; [program_version] is the [version] of the
    plugin's [package.json]. *)
Section Generator.

Variable PackageURL_toString :
  string -> option string -> string -> option string -> string.
Variable readPkgUp : string -> result (option PkgUp).
Variable Component_constructor : Package -> result (option string).
Variable program_version : string.

(** ** toPackageURL (lines 158-163) *)
Definition toPackageURL (module : Package) : option string :=
  match name module with
  | None => None
  | Some module_name =>
      if negb (truthy (VString module_name)) then None
      else
        let group := if truthy_str (scope module) then scope module else None in
        let group :=
          match group with
          | Some g => if truthy (VString g) then Some (String.append "@" g) else group
          | None => group
          end in
        Some (PackageURL_toString "npm" group module_name (version module))
  end.

(** [new Component(pkg)]: the call of line 100 is outside the [try] of
    lines 65-71, so what the constructor throws leaves [buildBom]. *)
Definition new_Component (pkg : Package) : result Component :=
  do ref <- Component_constructor pkg;
  Ok {| component_pkg := pkg; bomRef := ref |}.

(** ** buildBom (lines 40-132) *)

(** Lines 64-71: the two lookups inside [try]; [catch] logs the error and
    leaves unassigned whatever the [try] block had not assigned yet. *)
Definition lookupPackages (requester dependency : string) (st : State)
  : option PkgUp * option PkgUp * State :=
  match readPkgUp requester with
  | Throw err => (None, None, console_log err st)
  | Ok requesterPkg =>
      match readPkgUp dependency with
      | Throw err => (requesterPkg, None, console_log err st)
      | Ok dependencyPkg => (requesterPkg, dependencyPkg, st)
      end
  end.

(** Lines 117-118, reached with a truthy [dr]:
    [if (! dr._dependencies) dr._dependencies = []; dr._dependencies.push(dependency)].
    On a primitive [dr] the read gives [undefined], the assignment is
    dropped and the call of [push] throws. *)
Definition push_dependency (dr : value) (dependency : addr) (st : State) : result State :=
  match dr with
  | VObject a =>
      match heap st !! a with
      | Some d =>
          let ds := match _dependencies d with Some ds => ds | None => [] end in
          Ok (set_heap st
                (<[a := {| _ref := _ref d; _dependencies := Some (ds ++ [dependency]) |}]>
                   (heap st)))
      | None => Throw "TypeError"
      end
  | _ => Throw "TypeError"
  end.

(** Lines 100-123: the dependency identity is not in [bomRefLookup]. *)
Definition insertDependency (requesterBomRef dependencyBomRef : option string)
    (dependencyPackage : Package) (st : State) : result State :=
  do component <- new_Component dependencyPackage;
  let st := addComponent component st in
  let dr := findDependencyByRef (bom st) requesterBomRef in
  let '(dr, st) :=
    if negb (truthy dr) then
      let '(a, st) := new_Dependency requesterBomRef st in
      (VObject a, addDependency a st)
    else (dr, st) in
  let dd := findDependencyByRef (bom st) dependencyBomRef in
  do st <-
    (if truthy dd then Ok st
     else
       let '(dependency, st) := new_Dependency (bomRef component) st in
       let st := addDependency dependency st in
       if truthy dr && negb (value_eqb dd dr)
       then push_dependency dr dependency st
       else Ok st);
  Ok (set_bomRefLookup st (bomRefLookup st ++ [dependencyBomRef])).

(** Lines 73-130: both descriptors were found. *)
Definition relatePackages (requesterPkg dependencyPkg : PkgUp) (st : State) : result State :=
  let requesterPackage := package requesterPkg in
  let dependencyPackage := package dependencyPkg in
  let st :=
    if ref_eqb (name requesterPackage) (Some "popper.js")
       || ref_eqb (name dependencyPackage) (Some "popper.js")
    then console_log (String.append (to_display (name requesterPackage))
                        (String.append " / " (to_display (name dependencyPackage)))) st
    else st in
  let requesterBomRef := toPackageURL requesterPackage in
  let dependencyBomRef := toPackageURL dependencyPackage in
  if includes (bomRefLookup st) dependencyBomRef then Ok st
  else insertDependency requesterBomRef dependencyBomRef dependencyPackage st.

(** The body of the [for ... of] loop. *)
Definition processModule (st : State) (moduleData : ModuleData) : result State :=
  match filterModule moduleData with
  | None => Ok st
  | Some (requester, dependency) =>
      match lookupPackages requester dependency st with
      | (Some requesterPkg, Some dependencyPkg, st) =>
          relatePackages requesterPkg dependencyPkg st
      | (_, _, st) => Ok st
      end
  end.

Fixpoint buildBom_loop (modules : list ModuleData) (st : State) : result State :=
  match modules with
  | [] => Ok st
  | moduleData :: modules' =>
      do st <- processModule st moduleData;
      buildBom_loop modules' st
  end.

(** [buildBom(bom)] starts with empty [bomRefLookup]. *)
Definition initial_state (b : Bom) : State :=
  {| bom := b; heap := []; bomRefLookup := []; console := [] |}.

Definition buildBom (modules : list ModuleData) (b : Bom) : result State :=
  buildBom_loop modules (initial_state b).

(** Lines 191-198: a fresh [Bom] stamped with the tool, then [buildBom]. *)
Definition new_Bom : Bom :=
  {| metadata := None; components := []; dependencies := [] |}.

Definition stamped_Bom : Bom :=
  {| metadata := Some {| tools := [ {| tool_vendor := "CycloneDX";
                                       tool_name := "webpack-plugin";
                                       tool_version := program_version |} ] |};
     components := components new_Bom;
     dependencies := dependencies new_Bom |}.

Definition resolveComponents (modules : list ModuleData) : result State :=
  buildBom modules stamped_Bom.

(** ** Views of the build used to state its properties *)

(** The [bomRef] of the component that the constructor builds from [pkg],
    when it builds one. *)
Definition Component_bomRef (pkg : Package) : option string :=
  match Component_constructor pkg with
  | Ok ref => ref
  | Throw _ => None
  end.

Definition built_Component (pkg : Package) : Component :=
  {| component_pkg := pkg; bomRef := Component_bomRef pkg |}.

(** What [insertDependency] amounts to when the constructor returns: one
    component, a new holder for the requester that links to a new holder
    for the component. *)
Definition link_step (requesterBomRef dependencyBomRef : option string)
    (p : Package) (st : State) : State :=
  let n := length (heap st) in
  {| bom := {| metadata := metadata (bom st);
               components := components (bom st) ++ [built_Component p];
               dependencies := (dependencies (bom st) ++ [n]) ++ [S n] |};
     heap := (heap st ++ [{| _ref := requesterBomRef; _dependencies := Some [S n] |}])
               ++ [{| _ref := Component_bomRef p; _dependencies := None |}];
     bomRefLookup := bomRefLookup st ++ [dependencyBomRef];
     console := console st |}.

(** The requester and the dependency path of a module, as line 56 reads
    them. *)
Definition requesterPath (moduleData : ModuleData) : option string :=
  match issuer moduleData with
  | Some iss => issuer_resource iss
  | None => None
  end.

Definition dependencyPath (moduleData : ModuleData) : option string :=
  resource moduleData.

(** A module that passes the filter and whose two lookups both return a
    descriptor: the two descriptors that reach line 74. *)
Definition resolved_edge (moduleData : ModuleData) : option (Package * Package) :=
  match filterModule moduleData with
  | None => None
  | Some (requester, dependency) =>
      match readPkgUp requester, readPkgUp dependency with
      | Ok (Some requesterPkg), Ok (Some dependencyPkg) =>
          Some (package requesterPkg, package dependencyPkg)
      | _, _ => None
      end
  end.

(** A lookup that throws or finds no descriptor. *)
Definition lookup_fails (cwd : string) : Prop :=
  (exists err, readPkgUp cwd = Throw err) \/ readPkgUp cwd = Ok None.

(** The resolved edges whose dependency identity is not in [seen] and was
    not the dependency identity of an earlier resolved edge, each with the
    requester identity and the dependency descriptor. *)
Fixpoint first_sights (modules : list ModuleData) (seen : list (option string))
  : list (option string * Package) :=
  match modules with
  | [] => []
  | moduleData :: modules' =>
      match resolved_edge moduleData with
      | Some (requesterPackage, dependencyPackage) =>
          if includes seen (toPackageURL dependencyPackage)
          then first_sights modules' seen
          else (toPackageURL requesterPackage, dependencyPackage)
                 :: first_sights modules' (seen ++ [toPackageURL dependencyPackage])
      | None => first_sights modules' seen
      end
  end.

(** The constructor accepts the dependency descriptor of every resolved
    module of the list. *)
Definition accepts_all (modules : list ModuleData) : Prop :=
  forall m rp dp, m ∈ modules -> resolved_edge m = Some (rp, dp) ->
    exists ref, Component_constructor dp = Ok ref.

End Generator.

(** ** The relation set of a state

    A holder [a] of [bom.dependencies] that lists [d] in its
    [_dependencies] records the relation [ref a -> ref d]. *)
Definition holder_ref (h : list Dependency) (a : addr) : option string :=
  match h !! a with
  | Some d => _ref d
  | None => None
  end.

Definition holder_links (h : list Dependency) (a : addr) : list addr :=
  match h !! a with
  | Some d => match _dependencies d with Some ds => ds | None => [] end
  | None => []
  end.

Definition relations (st : State) : list (option string * option string) :=
  flat_map
    (fun a => map (fun d => (holder_ref (heap st) a, holder_ref (heap st) d))
                  (holder_links (heap st) a))
    (dependencies (bom st)).

(** The canonical identities of the components of a bom. *)
Definition component_identities
    (purl : string -> option string -> string -> option string -> string)
    (b : Bom) : list (option string) :=
  map (fun c => toPackageURL purl (component_pkg c)) (components b).

(** A module that lines 52-61 skip: a path is missing or empty, or the
    requester path starts with one of the two markers. *)
Definition skipped_edge (moduleData : ModuleData) : Prop :=
  truthy_str (requesterPath moduleData) = false
  \/ truthy_str (dependencyPath moduleData) = false
  \/ exists requester, requesterPath moduleData = Some requester
       /\ (String.prefix "ignored" requester = true
           \/ String.prefix "external" requester = true).

(** How many entries of a list are the identity [x], and how many are the
    relation [a -> b]. *)
Fixpoint count_identity (x : option string) (l : list (option string)) : nat :=
  match l with
  | [] => 0
  | y :: l' => (if ref_eqb y x then 1 else 0) + count_identity x l'
  end.


(** Two states with the same graph: they may differ in the console. *)
Definition same_graph (st st' : State) : Prop :=
  bom st = bom st' /\ heap st = heap st' /\ bomRefLookup st = bomRefLookup st'.

(** Two runs with the same outcome: both return, with the same graph, or
    both throw the same error. *)
Definition same_outcome (r r' : result State) : Prop :=
  match r, r' with
  | Ok st, Ok st' => same_graph st st'
  | Throw e, Throw e' => e = e'
  | _, _ => False
  end.

(** Every address stored in the bom or in a holder is allocated. *)
Definition heap_closed (st : State) : Prop :=
  Forall (fun a => a < length (heap st)) (dependencies (bom st))
  /\ Forall (fun d => Forall (fun a => a < length (heap st))
                        (match _dependencies d with Some ds => ds | None => [] end))
            (heap st).

(** ** findRoots (lines 169-189) *)

(** [s.includes(sub)]: [sub] occurs somewhere in [s]. *)
Fixpoint String_includes (s sub : string) : bool :=
  String.prefix sub s
  || match s with
     | EmptyString => false
     | String _ s' => String_includes s' sub
     end.

(** Modelled from the spec: the classes of the dependency tree, which
    [findRoots] receives and which the source file does not define. A
    node tracks its [requiredBy] list and its originating [locations],
    and [setRootPackage] marks it. Nodes are objects shared between the
    lookup and the roots, so they live in the heap [nodes]. *)
Record DependencyNode : Type := {
  requiredBy : list addr;
  locations : list string;
  rootPackage : bool
}.

(** Modelled from the spec: the tree, a lookup keyed by name, then by
    version, to a node, and the roots that [addRoot] collects. An object
    used as a map is the list of its entries in the order [Object.keys]
    enumerates them. *)
Record DependencyTree : Type := {
  lookupMap : list (string * list (string * addr));
  nodes : list DependencyNode;
  roots : list addr
}.

Definition mark_node (flag : bool) (node : DependencyNode) : DependencyNode :=
  {| requiredBy := requiredBy node; locations := locations node; rootPackage := flag |}.

(** Modelled from the spec: [node.setRootPackage(flag)] on the node at [a]. *)
Definition setRootPackage (a : addr) (flag : bool) (t : DependencyTree) : DependencyTree :=
  match nodes t !! a with
  | Some node =>
      {| lookupMap := lookupMap t;
         nodes := <[a := mark_node flag node]> (nodes t);
         roots := roots t |}
  | None => t
  end.

(** Modelled from the spec: [dependencyTree.addRoot(node)]. *)
Definition addRoot (a : addr) (t : DependencyTree) : DependencyTree :=
  {| lookupMap := lookupMap t; nodes := nodes t; roots := roots t ++ [a] |}.

(** Lines 178-180, the value of [rootNode]. *)
Definition is_rootNode (node : DependencyNode) : bool :=
  Nat.eqb (length (requiredBy node)) 0
  && existsb (fun location => negb (String_includes location "node_modules"))
             (locations node).

(** Lines 175-186, for the node at address [a]. *)
Definition visitNode (t : DependencyTree) (a : addr) : result DependencyTree :=
  match nodes t !! a with
  | None => Throw "TypeError"
  | Some node =>
      let rootNode := is_rootNode node in
      if rootNode then Ok (addRoot a (setRootPackage a rootNode t)) else Ok t
  end.

Fixpoint findRoots_versions (versions : list (string * addr)) (t : DependencyTree)
  : result DependencyTree :=
  match versions with
  | [] => Ok t
  | (_, a) :: versions' =>
      do t <- visitNode t a;
      findRoots_versions versions' t
  end.

Fixpoint findRoots_names (entries : list (string * list (string * addr)))
    (t : DependencyTree) : result DependencyTree :=
  match entries with
  | [] => Ok t
  | (_, versions) :: entries' =>
      do t <- findRoots_versions versions t;
      findRoots_names entries' t
  end.

Definition findRoots (dependencyTree : DependencyTree) : result DependencyTree :=
  findRoots_names (lookupMap dependencyTree) dependencyTree.

(** The nodes of a tree, in the order [findRoots] visits them. *)
Definition tree_nodes (t : DependencyTree) : list addr :=
  flat_map (fun entry => map snd entry.2) (lookupMap t).

Fixpoint visit_all (addrs : list addr) (t : DependencyTree) : result DependencyTree :=
  match addrs with
  | [] => Ok t
  | a :: addrs' =>
      do t <- visitNode t a;
      visit_all addrs' t
  end.

Definition root_at (h : list DependencyNode) (a : addr) : bool :=
  match h !! a with
  | Some node => is_rootNode node
  | None => false
  end.

(** The specification's words, for comparison with the test of line 179:
    a location is inside a [node_modules] directory when one of the
    directories on its path has that name. *)
Definition is_separator (c : ascii) : bool :=
  Ascii.eqb c "/" || Ascii.eqb c "\".

Fixpoint path_directories (segment : string) (location : string) : list string :=
  match location with
  | EmptyString => []
  | String c location' =>
      if is_separator c then segment :: path_directories EmptyString location'
      else path_directories (String.append segment (String c EmptyString)) location'
  end.

Definition inside_node_modules (location : string) : bool :=
  existsb (String.eqb "node_modules") (path_directories EmptyString location).

(** A package whose only file is [node_modules_shim.js] in [/app/src]. *)
Definition shim_node : DependencyNode :=
  {| requiredBy := []; locations := ["/app/src/node_modules_shim.js"];
     rootPackage := false |}.

Definition shim_tree : DependencyTree :=
  {| lookupMap := [("shim", [("1.0.0", 0)])]; nodes := [shim_node]; roots := [] |}.

(** ** A concrete instance

    The identity string format [pkg:npm/[<scope>/]<name>@<version>] and a
    small file system, used to run the generator on examples. *)
Definition purl_format (type : string) (namespace : option string)
    (name : string) (version : option string) : string :=
  String.append "pkg:"
    (String.append type
       (String.append "/"
          (String.append
             (match namespace with
              | Some ns => String.append ns "/"
              | None => EmptyString
              end)
             (String.append name
                (match version with
                 | Some v => String.append "@" v
                 | None => EmptyString
                 end))))).

Definition pkg_app : Package :=
  {| name := Some "app"; version := Some "1.0.0"; scope := None; fields := [] |}.
Definition pkg_lodash : Package :=
  {| name := Some "lodash"; version := Some "4.17.21"; scope := None; fields := [] |}.
Definition pkg_lib : Package :=
  {| name := Some "lib"; version := Some "2.0.0"; scope := None; fields := [] |}.

(** [/app/node_modules/lodash/...] belongs to lodash,
    [/app/node_modules/lib/...] to lib, the rest of [/app/...] to app;
    [/broken/...] has an unreadable descriptor and nothing else has one. *)
Definition sample_readPkgUp (cwd : string) : result (option PkgUp) :=
  if String.prefix "/app/node_modules/lodash/" cwd then
    Ok (Some {| package := pkg_lodash; path := "/app/node_modules/lodash/package.json" |})
  else if String.prefix "/app/node_modules/lib/" cwd then
    Ok (Some {| package := pkg_lib; path := "/app/node_modules/lib/package.json" |})
  else if String.prefix "/app/" cwd then
    Ok (Some {| package := pkg_app; path := "/app/package.json" |})
  else if String.prefix "/broken/" cwd then Throw "JSONError"
  else Ok None.

Definition edge (requester dependency : string) : ModuleData :=
  {| issuer := Some {| issuer_resource := Some requester |};
     resource := Some dependency |}.

(** A constructor that rejects a descriptor without a name, gives no
    [bomRef] to a descriptor without a version, and otherwise gives the
    identity string. *)
Definition sample_Component (pkg : Package) : result (option string) :=
  if negb (truthy_str (name pkg)) then Throw "ReferenceError: Name is required"
  else if negb (truthy_str (version pkg)) then Ok None
  else Ok (toPackageURL purl_format pkg).

Definition sample_resolveComponents (modules : list ModuleData) : result State :=
  resolveComponents purl_format sample_readPkgUp sample_Component "1.0.0" modules.

Definition app_uses_lodash : ModuleData :=
  edge "/app/src/index.js" "/app/node_modules/lodash/index.js".
Definition lib_uses_lodash : ModuleData :=
  edge "/app/node_modules/lib/main.js" "/app/node_modules/lodash/index.js".
Definition app_uses_app : ModuleData :=
  edge "/app/src/index.js" "/app/src/util.js".
Definition external_fs : ModuleData :=
  edge "external node:fs" "/app/src/index.js".
Definition broken_uses_app : ModuleData :=
  edge "/broken/src/index.js" "/app/src/index.js".

Definition sample_identity (p : Package) : option string := toPackageURL purl_format p.

Definition sample_tree : DependencyTree :=
  {| lookupMap := [("app", [("1.0.0", 0)]); ("lodash", [("4.17.21", 1)])];
     nodes := [ {| requiredBy := []; locations := ["/app/src/index.js"];
                   rootPackage := false |};
                {| requiredBy := [0];
                   locations := ["/app/node_modules/lodash/index.js"];
                   rootPackage := false |} ];
     roots := [] |}.

(** ** isComponentInBom (lines 148-156)

    Like [findDependencyByRef], the loop is a [for ... in]: [c] ranges
    over the index keys of [bom.components], and [c.bomRef] is a property
    read on a string. *)
Fixpoint isComponentInBom_loop (keys : list string) (bomRef : option string) : bool :=
  match keys with
  | [] => false
  | c :: keys' =>
      if value_eqb (string_get c "bomRef") (to_value bomRef) then true
      else isComponentInBom_loop keys' bomRef
  end.

Definition isComponentInBom
    (PackageURL_toString : string -> option string -> string -> option string -> string)
    (b : Bom) (module : Package) : bool :=
  let bomRef := toPackageURL PackageURL_toString module in
  isComponentInBom_loop (for_in_keys (components b)) bomRef.

(** The tool entry of lines 192-195. *)
Definition stamped_tool (program_version : string) : Tool :=
  {| tool_vendor := "CycloneDX"; tool_name := "webpack-plugin";
     tool_version := program_version |}.

(** A module whose package has no name, for the examples. *)
Definition pkg_nameless : Package :=
  {| name := None; version := Some "0.0.1"; scope := None; fields := [] |}.

Definition nameless_readPkgUp (cwd : string) : result (option PkgUp) :=
  if String.prefix "/anon/" cwd then
    Ok (Some {| package := pkg_nameless; path := "/anon/package.json" |})
  else sample_readPkgUp cwd.

Definition anon_uses_lodash : ModuleData :=
  edge "/anon/index.js" "/app/node_modules/lodash/index.js".

Definition app_uses_external : ModuleData :=
  edge "/app/src/index.js" "external node:fs".

Definition app_uses_anon : ModuleData :=
  edge "/app/src/index.js" "/anon/index.js".





(** * Properties *)

(** ** Values and identities *)

Lemma ref_eqb_eq (x y : option string) : ref_eqb x y = true <-> x = y.
Proof.
  destruct x as [s|], y as [t|]; unfold ref_eqb; simpl;
    try (split; [discriminate | congruence]); try tauto.
  rewrite String.eqb_eq. split; congruence.
Qed.

Lemma includes_elem_of (l : list (option string)) (x : option string) :
  includes l x = true <-> x ∈ l.
Proof.
  induction l as [|y l IH]; simpl.
  - split; [discriminate | intros H; inversion H].
  - rewrite orb_true_iff, ref_eqb_eq, IH, elem_of_cons. intuition congruence.
Qed.

Lemma includes_not_elem_of (l : list (option string)) (x : option string) :
  includes l x = false <-> x ∉ l.
Proof.
  rewrite <- includes_elem_of. destruct (includes l x); intuition congruence.
Qed.

Lemma string_get_ref (d : string) : string_get d "ref" = VUndefined.
Proof.
  unfold string_get. simpl. destruct (is_index_key d "ref"); reflexivity.
Qed.

Lemma findDependencyByRef_loop_undefined (keys : list string) (ref : option string) :
  findDependencyByRef_loop keys ref = VUndefined.
Proof.
  induction keys as [|d keys IH]; simpl.
  - reflexivity.
  - rewrite string_get_ref. simpl. exact IH.
Qed.

Lemma findDependencyByRef_undefined (b : Bom) (ref : option string) :
  findDependencyByRef b ref = VUndefined.
Proof. apply findDependencyByRef_loop_undefined. Qed.

(** ** The identity resolver *)

(** C8. [toPackageURL] returns [undefined] exactly when the name of the
    descriptor is absent or empty, and two descriptors with the same
    name, scope and version get the same identity string, whatever else
    they hold. *)
Theorem toPackageURL_pure
    (PackageURL_toString : string -> option string -> string -> option string -> string) :
  (forall module, toPackageURL PackageURL_toString module = None
                  <-> (name module = None \/ name module = Some EmptyString))
  /\ (forall m1 m2, name m1 = name m2 -> scope m1 = scope m2 ->
        version m1 = version m2 ->
        toPackageURL PackageURL_toString m1 = toPackageURL PackageURL_toString m2).
Proof.
  split.
  - intros module. unfold toPackageURL.
    destruct (name module) as [n|]; [| tauto].
    cbn [truthy]. destruct (String.eqb n EmptyString) eqn:Hn; cbn [negb].
    + apply String.eqb_eq in Hn. subst. tauto.
    + apply String.eqb_neq in Hn. split; [discriminate |].
      intros [H | H]; [discriminate | congruence].
  - intros m1 m2 Hn Hs Hv. unfold toPackageURL.
    rewrite Hn, Hs, Hv. reflexivity.
Qed.

(** ** One step of the build *)

Section GeneratorFacts.

Variable PackageURL_toString :
  string -> option string -> string -> option string -> string.
Variable readPkgUp : string -> result (option PkgUp).
Variable Component_constructor : Package -> result (option string).

Abbreviation toPackageURL := (toPackageURL PackageURL_toString).
Abbreviation new_Component := (new_Component Component_constructor).
Abbreviation Component_bomRef := (Component_bomRef Component_constructor).
Abbreviation built_Component := (built_Component Component_constructor).
Abbreviation insertDependency := (insertDependency Component_constructor).
Abbreviation processModule :=
  (processModule PackageURL_toString readPkgUp Component_constructor).
Abbreviation buildBom_loop :=
  (buildBom_loop PackageURL_toString readPkgUp Component_constructor).
Abbreviation link_step := (link_step Component_constructor).
Abbreviation resolved_edge := (resolved_edge readPkgUp).
Abbreviation lookup_fails := (lookup_fails readPkgUp).
Abbreviation first_sights := (first_sights PackageURL_toString readPkgUp).
Abbreviation accepts_all := (accepts_all readPkgUp Component_constructor).
Abbreviation resolveComponents :=
  (resolveComponents PackageURL_toString readPkgUp Component_constructor).

(** [insertDependency] throws what the constructor throws, and is
    [link_step] when the constructor returns. *)
Lemma insertDependency_cases (r dref : option string) (p : Package) (st : State) :
  insertDependency r dref p st
  = match Component_constructor p with
    | Ok _ => Ok (link_step r dref p st)
    | Throw e => Throw e
    end.
Proof.
  unfold insertDependency, new_Component.
  destruct (Component_constructor p) as [ref|e] eqn:Hc; cbn [bind]; [| reflexivity].
  cbv zeta. rewrite findDependencyByRef_undefined. cbn -[findDependencyByRef].
  rewrite findDependencyByRef_undefined. cbn.
  rewrite length_app. cbn. rewrite Nat.add_1_r.
  unfold push_dependency. cbn.
  rewrite lookup_app_l by (rewrite length_app; cbn; lia).
  rewrite list_lookup_middle by reflexivity. cbn.
  rewrite insert_app_l by (rewrite length_app; cbn; lia).
  rewrite insert_app_r_alt by lia. rewrite Nat.sub_diag. cbn.
  unfold link_step, built_Component, Component_bomRef. rewrite Hc. reflexivity.
Qed.


Lemma same_graph_refl (st : State) : same_graph st st.
Proof. repeat split. Qed.

Lemma same_graph_sym (st st' : State) : same_graph st st' -> same_graph st' st.
Proof. intros (? & ? & ?). repeat split; congruence. Qed.

Lemma same_graph_trans (st1 st2 st3 : State) :
  same_graph st1 st2 -> same_graph st2 st3 -> same_graph st1 st3.
Proof. intros (? & ? & ?) (? & ? & ?). repeat split; congruence. Qed.

Lemma same_graph_console_log (msg : string) (st : State) :
  same_graph (console_log msg st) st.
Proof. repeat split. Qed.

Lemma same_graph_link_step (r dref : option string) (p : Package) (st st' : State) :
  same_graph st st' -> same_graph (link_step r dref p st) (link_step r dref p st').
Proof.
  intros (Hb & Hh & Hl). unfold link_step. repeat split; cbn; congruence.
Qed.

Lemma same_graph_relations (st st' : State) :
  same_graph st st' -> relations st = relations st'.
Proof. intros (Hb & Hh & _). unfold relations. rewrite Hb, Hh. reflexivity. Qed.

Lemma same_graph_heap_closed (st st' : State) :
  same_graph st st' -> heap_closed st -> heap_closed st'.
Proof. intros (Hb & Hh & _). unfold heap_closed. rewrite Hb, Hh. tauto. Qed.

(** One pass of the loop body changes the graph only on a resolved edge
    whose dependency identity is new, and throws only what the
    constructor throws on the descriptor of that dependency. *)
Lemma processModule_cases (st : State) (m : ModuleData) :
  match resolved_edge m with
  | Some (rp, dp) =>
      if includes (bomRefLookup st) (toPackageURL dp)
      then exists st1, processModule st m = Ok st1 /\ same_graph st1 st
      else
        match Component_constructor dp with
        | Ok _ =>
            exists st1, processModule st m = Ok st1
              /\ same_graph st1 (link_step (toPackageURL rp) (toPackageURL dp) dp st)
        | Throw e => processModule st m = Throw e
        end
  | None => exists st1, processModule st m = Ok st1 /\ same_graph st1 st
  end.
Proof.
  unfold processModule, resolved_edge.
  destruct (filterModule m) as [[requester dependency]|].
  2:{ exists st. split; [reflexivity | apply same_graph_refl]. }
  unfold lookupPackages.
  destruct (readPkgUp requester) as [[requesterPkg|]|e].
  - destruct (readPkgUp dependency) as [[dependencyPkg|]|e'].
    + unfold relatePackages. cbv zeta.
      set (st0 := if _ : bool then console_log _ st else st).
      assert (H0 : same_graph st0 st).
      { subst st0. destruct (_ || _); [apply same_graph_console_log | apply same_graph_refl]. }
      assert (Hl : bomRefLookup st0 = bomRefLookup st) by apply H0.
      rewrite Hl.
      destruct (includes (bomRefLookup st) _) eqn:Hinc.
      * exists st0. split; [reflexivity | exact H0].
      * rewrite insertDependency_cases.
        destruct (Component_constructor (package dependencyPkg)); [| reflexivity].
        eexists. split; [reflexivity |]. apply same_graph_link_step, H0.
    + exists st. split; [reflexivity | apply same_graph_refl].
    + exists (console_log e' st). split; [reflexivity | apply same_graph_console_log].
  - destruct (readPkgUp dependency) as [[dependencyPkg|]|e'].
    + exists st. split; [reflexivity | apply same_graph_refl].
    + exists st. split; [reflexivity | apply same_graph_refl].
    + exists (console_log e' st). split; [reflexivity | apply same_graph_console_log].
  - exists (console_log e st). split; [reflexivity | apply same_graph_console_log].
Qed.

(** ** The relation set under allocation *)

Lemma holder_ref_app (h h' : list Dependency) (a : addr) :
  a < length h -> holder_ref (h ++ h') a = holder_ref h a.
Proof. intros Ha. unfold holder_ref. rewrite lookup_app_l by exact Ha. reflexivity. Qed.

Lemma holder_links_app (h h' : list Dependency) (a : addr) :
  a < length h -> holder_links (h ++ h') a = holder_links h a.
Proof. intros Ha. unfold holder_links. rewrite lookup_app_l by exact Ha. reflexivity. Qed.

Lemma holder_links_closed (st : State) (a d : addr) :
  heap_closed st -> d ∈ holder_links (heap st) a -> d < length (heap st).
Proof.
  intros [_ Hh] Hd. unfold holder_links in Hd.
  destruct (heap st !! a) as [x|] eqn:Hx; [| inversion Hd].
  rewrite Forall_forall in Hh. specialize (Hh x).
  assert (Hin : x ∈ heap st) by (apply list_elem_of_lookup; eauto).
  specialize (Hh Hin). rewrite Forall_forall in Hh. auto.
Qed.

Lemma relations_app_heap (st : State) (h' : list Dependency) :
  heap_closed st ->
  flat_map
    (fun a => map (fun d => (holder_ref (heap st ++ h') a, holder_ref (heap st ++ h') d))
                  (holder_links (heap st ++ h') a))
    (dependencies (bom st))
  = relations st.
Proof.
  intros Hc. unfold relations.
  assert (Hd : Forall (fun a => a < length (heap st)) (dependencies (bom st))) by apply Hc.
  induction Hd as [|a l Ha _ IH]; cbn; [reflexivity |].
  rewrite IH. f_equal.
  rewrite holder_links_app, holder_ref_app by exact Ha.
  apply map_ext_in. intros d Hin.
  rewrite holder_ref_app; [reflexivity |].
  apply (holder_links_closed st a d Hc). apply list_elem_of_In. exact Hin.
Qed.

Lemma relations_link_step (r dref : option string) (p : Package) (st : State) :
  heap_closed st ->
  relations (link_step r dref p st) = relations st ++ [(r, Component_bomRef p)].
Proof.
  intros Hc. unfold relations at 1. unfold link_step. cbn [bom heap dependencies].
  rewrite !flat_map_app. rewrite <- !app_assoc.
  rewrite (relations_app_heap st _ Hc). cbn [flat_map app].
  unfold holder_links, holder_ref.
  rewrite !(list_lookup_middle (heap st) _ _ (length (heap st)) eq_refl).
  assert (Hlast : forall x y : Dependency,
             (heap st ++ [x; y]) !! S (length (heap st)) = Some y).
  { intros x y. rewrite lookup_app_r by lia.
    replace (S (length (heap st)) - length (heap st)) with 1 by lia. reflexivity. }
  cbn [app]. rewrite !Hlast. cbn. rewrite ?Hlast. reflexivity.
Qed.

Lemma heap_closed_link_step (r dref : option string) (p : Package) (st : State) :
  heap_closed st -> heap_closed (link_step r dref p st).
Proof.
  intros [Hd Hh]. unfold heap_closed, link_step. cbn [bom heap dependencies].
  rewrite !length_app. cbn [length]. split.
  - rewrite !Forall_app. repeat split.
    + eapply Forall_impl; [exact Hd |]. cbn. intros; lia.
    + repeat constructor. lia.
    + repeat constructor. lia.
  - rewrite !Forall_app. repeat split.
    + eapply Forall_impl; [exact Hh |]. cbn. intros d Hx.
      eapply Forall_impl; [exact Hx |]. cbn. intros; lia.
    + repeat constructor. cbn. lia.
    + repeat constructor.
Qed.

(** ** The whole loop *)

Lemma heap_closed_initial (md : option Metadata) (cs : list Component) :
  heap_closed (initial_state {| metadata := md; components := cs; dependencies := [] |}).
Proof. split; constructor. Qed.

(** When the loop returns, the constructor accepted every first sight,
    and the loop added one component, one identity and one relation per
    first sight, in order, and nothing else. When it throws, the error is
    what the constructor threw on some first sight. *)
Lemma buildBom_loop_shape (modules : list ModuleData) :
  forall st, heap_closed st ->
  match buildBom_loop modules st with
  | Ok st' =>
      Forall (fun x => exists ref, Component_constructor x.2 = Ok ref)
             (first_sights modules (bomRefLookup st))
      /\ heap_closed st'
      /\ metadata (bom st') = metadata (bom st)
      /\ components (bom st')
          = components (bom st)
              ++ map (fun x => built_Component x.2) (first_sights modules (bomRefLookup st))
      /\ bomRefLookup st'
          = bomRefLookup st
              ++ map (fun x => toPackageURL x.2) (first_sights modules (bomRefLookup st))
      /\ relations st'
          = relations st
              ++ map (fun x => (x.1, Component_bomRef x.2))
                     (first_sights modules (bomRefLookup st))
  | Throw e =>
      exists x, x ∈ first_sights modules (bomRefLookup st)
        /\ Component_constructor x.2 = Throw e
  end.
Proof.
  induction modules as [|m modules IH]; intros st Hc.
  - cbn. rewrite !app_nil_r. repeat split; auto; apply Hc.
  - pose proof (processModule_cases st m) as Hcase.
    cbn [buildBom_loop first_sights].
    assert (Hsame : forall st1 st2, processModule st m = Ok st1 ->
              same_graph st1 st2 -> heap_closed st2 ->
              match (do st0 <- processModule st m; buildBom_loop modules st0) with
              | Ok st' =>
                  Forall (fun x => exists ref, Component_constructor x.2 = Ok ref)
                         (first_sights modules (bomRefLookup st2))
                  /\ heap_closed st'
                  /\ metadata (bom st') = metadata (bom st2)
                  /\ components (bom st')
                      = components (bom st2)
                          ++ map (fun x => built_Component x.2)
                                 (first_sights modules (bomRefLookup st2))
                  /\ bomRefLookup st'
                      = bomRefLookup st2
                          ++ map (fun x => toPackageURL x.2)
                                 (first_sights modules (bomRefLookup st2))
                  /\ relations st'
                      = relations st2
                          ++ map (fun x => (x.1, Component_bomRef x.2))
                                 (first_sights modules (bomRefLookup st2))
              | Throw e =>
                  exists x, x ∈ first_sights modules (bomRefLookup st2)
                    /\ Component_constructor x.2 = Throw e
              end).
    { intros st1 st2 Hp Hs Hc2. rewrite Hp. cbn [bind].
      pose proof (IH st1 (same_graph_heap_closed _ _ (same_graph_sym _ _ Hs) Hc2)) as H.
      pose proof (same_graph_relations _ _ Hs) as Hrel.
      destruct Hs as (Hb & Hh & Hlk). rewrite Hlk, Hb in H.
      destruct (buildBom_loop modules st1) as [st'|e]; [| exact H].
      rewrite Hrel in H. exact H. }
    destruct (resolved_edge m) as [[rp dp]|].
    + destruct (includes (bomRefLookup st) (toPackageURL dp)).
      * destruct Hcase as (st1 & Hp & Hs). exact (Hsame st1 st Hp Hs Hc).
      * destruct (Component_constructor dp) as [ref|e] eqn:Hctor.
        -- destruct Hcase as (st1 & Hp & Hs).
           pose proof (Hsame st1 _ Hp Hs (heap_closed_link_step _ _ dp st Hc)) as H.
           destruct (do st0 <- processModule st m; buildBom_loop modules st0) as [st'|e].
           ++ destruct H as (Hall & Hc' & Hm & Hcs & Hl & Hr).
              rewrite relations_link_step in Hr by exact Hc.
              cbn [link_step bom metadata components bomRefLookup]
                in Hall, Hm, Hcs, Hl, Hr.
              cbn [map fst snd]. rewrite <- !app_assoc in Hcs, Hl, Hr.
              split; [| auto 10].
              constructor; [cbn; eauto | exact Hall].
           ++ destruct H as (x & Hx & He). exists x. split; [| exact He].
              apply elem_of_cons. right. exact Hx.
        -- rewrite Hcase. cbn [bind]. exists (toPackageURL rp, dp).
           split; [apply elem_of_cons; auto | exact Hctor].
    + destruct Hcase as (st1 & Hp & Hs). exact (Hsame st1 st Hp Hs Hc).
Qed.

(** ** First sights *)

Lemma first_sights_resolved (modules : list ModuleData) :
  forall seen r p, (r, p) ∈ first_sights modules seen ->
    exists m rp, m ∈ modules /\ resolved_edge m = Some (rp, p) /\ r = toPackageURL rp.
Proof.
  induction modules as [|m modules IH]; intros seen r p Hin; cbn in Hin.
  - inversion Hin.
  - destruct (resolved_edge m) as [[rp dp]|] eqn:Hm.
    + destruct (includes seen (toPackageURL dp)).
      * destruct (IH _ _ _ Hin) as (m' & rp' & ? & ? & ?).
        exists m', rp'. rewrite elem_of_cons. auto.
      * apply elem_of_cons in Hin as [Heq | Hin].
        -- inversion Heq; subst. exists m, rp. rewrite elem_of_cons. auto.
        -- destruct (IH _ _ _ Hin) as (m' & rp' & ? & ? & ?).
           exists m', rp'. rewrite elem_of_cons. auto.
    + destruct (IH _ _ _ Hin) as (m' & rp' & ? & ? & ?).
      exists m', rp'. rewrite elem_of_cons. auto.
Qed.

Lemma first_sights_NoDup (modules : list ModuleData) :
  forall seen, NoDup seen ->
    NoDup (seen ++ map (fun x => toPackageURL x.2) (first_sights modules seen)).
Proof.
  induction modules as [|m modules IH]; intros seen Hnd; cbn.
  - rewrite app_nil_r. exact Hnd.
  - destruct (resolved_edge m) as [[rp dp]|]; [| auto].
    destruct (includes seen (toPackageURL dp)) eqn:Hinc; [auto |].
    cbn [map snd]. rewrite cons_middle, app_assoc. apply IH.
    apply NoDup_app. repeat split.
    + exact Hnd.
    + intros x Hx Hx'. apply list_elem_of_singleton in Hx'. subst x.
      apply includes_not_elem_of in Hinc. contradiction.
    + apply NoDup_singleton.
Qed.

Lemma first_sights_covers (modules : list ModuleData) :
  forall seen m rp dp, m ∈ modules -> resolved_edge m = Some (rp, dp) ->
    toPackageURL dp ∈ seen ++ map (fun x => toPackageURL x.2) (first_sights modules seen).
Proof.
  induction modules as [|m0 modules IH]; intros seen m rp dp Hin Hm.
  - inversion Hin.
  - cbn. apply elem_of_cons in Hin as [-> | Hin].
    + rewrite Hm. destruct (includes seen (toPackageURL dp)) eqn:Hinc.
      * apply includes_elem_of in Hinc. apply elem_of_app. auto.
      * cbn [map snd]. apply elem_of_app. right. apply elem_of_cons. auto.
    + destruct (resolved_edge m0) as [[rp0 dp0]|]; [| eauto].
      destruct (includes seen (toPackageURL dp0)); [eauto |].
      cbn [map snd]. rewrite cons_middle, app_assoc. eauto.
Qed.

Lemma first_sights_first (l1 : list ModuleData) :
  forall seen m l2 rp dp,
    resolved_edge m = Some (rp, dp) ->
    toPackageURL dp ∉ seen ->
    (forall m' rp' dp', m' ∈ l1 -> resolved_edge m' = Some (rp', dp') ->
       toPackageURL dp' <> toPackageURL dp) ->
    (toPackageURL rp, dp) ∈ first_sights (l1 ++ m :: l2) seen.
Proof.
  induction l1 as [|m0 l1 IH]; intros seen m l2 rp dp Hm Hseen Hl1; cbn.
  - rewrite Hm. apply includes_not_elem_of in Hseen. rewrite Hseen.
    apply elem_of_cons. auto.
  - assert (Hl1' : forall m' rp' dp', m' ∈ l1 -> resolved_edge m' = Some (rp', dp') ->
              toPackageURL dp' <> toPackageURL dp).
    { intros m' rp' dp' Hin. apply Hl1. apply elem_of_cons. auto. }
    destruct (resolved_edge m0) as [[rp0 dp0]|] eqn:Hm0; [| auto].
    destruct (includes seen (toPackageURL dp0)); [auto |].
    apply elem_of_cons. right. apply IH; [exact Hm | | exact Hl1'].
    rewrite elem_of_app, list_elem_of_singleton. intros [? | Heq]; [contradiction |].
    apply (Hl1 m0 rp0 dp0); [apply elem_of_cons; auto | exact Hm0 | congruence].
Qed.

(** ** Counting *)

Lemma count_identity_NoDup (x : option string) (l : list (option string)) :
  NoDup l -> x ∈ l -> count_identity x l = 1.
Proof.
  induction 1 as [|y l Hy Hnd IH]; intros Hin; [inversion Hin |].
  cbn. destruct (ref_eqb y x) eqn:Heq.
  - apply ref_eqb_eq in Heq. subst y.
    assert (Hz : forall l', x ∉ l' -> count_identity x l' = 0).
    { induction l' as [|z l' IH']; intros Hn; cbn; [reflexivity |].
      rewrite not_elem_of_cons in Hn. destruct Hn as [Hne Hn].
      destruct (ref_eqb z x) eqn:Hz; [apply ref_eqb_eq in Hz; congruence | auto]. }
    rewrite (Hz l Hy). reflexivity.
  - apply elem_of_cons in Hin as [-> | Hin].
    + assert (ref_eqb y y = true) by (apply ref_eqb_eq; reflexivity). congruence.
    + cbn. auto.
Qed.


(** ** The generator from its initial state *)

Lemma first_sights_accepted (modules : list ModuleData) (seen : list (option string)) :
  accepts_all modules ->
  Forall (fun x => exists ref, Component_constructor x.2 = Ok ref)
         (first_sights modules seen).
Proof.
  intros Hacc. apply Forall_forall. intros [r p] Hin.
  destruct (first_sights_resolved _ _ _ _ Hin) as (m & rp & Hm & Hres & _).
  exact (Hacc m rp p Hm Hres).
Qed.

Lemma buildBom_loop_returns (modules : list ModuleData) (st : State) :
  heap_closed st -> accepts_all modules ->
  exists st', buildBom_loop modules st = Ok st'.
Proof.
  intros Hc Hacc. pose proof (buildBom_loop_shape modules st Hc) as H.
  destruct (buildBom_loop modules st) as [st'|e]; [eauto |].
  destruct H as (x & Hx & He).
  pose proof (first_sights_accepted modules (bomRefLookup st) Hacc) as Hall.
  rewrite Forall_forall in Hall. destruct (Hall x Hx) as (ref & Href). congruence.
Qed.

(** The build returns when the constructor accepts the dependency
    descriptors of the resolved modules. *)
Lemma resolveComponents_returns (program_version : string) (modules : list ModuleData) :
  accepts_all modules ->
  exists st, resolveComponents program_version modules = Ok st.
Proof.
  intros Hacc. apply buildBom_loop_returns; [apply heap_closed_initial | exact Hacc].
Qed.

(** What the build returns. *)
Lemma resolveComponents_shape (program_version : string) (modules : list ModuleData)
    (st : State) :
  resolveComponents program_version modules = Ok st ->
  Forall (fun x => exists ref, Component_constructor x.2 = Ok ref)
         (first_sights modules [])
  /\ components (bom st) = map (fun x => built_Component x.2) (first_sights modules [])
  /\ bomRefLookup st = map (fun x => toPackageURL x.2) (first_sights modules [])
  /\ relations st = map (fun x => (x.1, Component_bomRef x.2)) (first_sights modules []).
Proof.
  unfold resolveComponents, buildBom, stamped_Bom, new_Bom.
  cbn [components dependencies]. intros Hrun.
  pose proof (buildBom_loop_shape modules _ (heap_closed_initial
                (Some {| tools := [ {| tool_vendor := "CycloneDX";
                                       tool_name := "webpack-plugin";
                                       tool_version := program_version |} ] |}) []))
    as H.
  rewrite Hrun in H. destruct H as (Hall & _ & _ & Hcs & Hl & Hr). auto.
Qed.

Lemma loop_app (l1 l2 : list ModuleData) :
  forall st, buildBom_loop (l1 ++ l2) st
             = (do st' <- buildBom_loop l1 st; buildBom_loop l2 st').
Proof.
  induction l1 as [|m l1 IH]; intros st; cbn; [reflexivity |].
  destruct (processModule st m) as [st1|e]; cbn; [apply IH | reflexivity].
Qed.

(** From two states with the same graph the loop has the same outcome. *)
Lemma loop_same_graph (modules : list ModuleData) :
  forall s1 s2, same_graph s1 s2 ->
    same_outcome (buildBom_loop modules s1) (buildBom_loop modules s2).
Proof.
  induction modules as [|m modules IH]; intros s1 s2 Hs.
  - exact Hs.
  - pose proof (processModule_cases s1 m) as Hc1.
    pose proof (processModule_cases s2 m) as Hc2.
    assert (Hl : bomRefLookup s1 = bomRefLookup s2) by apply Hs.
    rewrite Hl in Hc1. cbn [buildBom_loop].
    destruct (resolved_edge m) as [[rp dp]|].
    + destruct (includes (bomRefLookup s2) (toPackageURL dp)).
      * destruct Hc1 as (u1 & Hp1 & Hu1). destruct Hc2 as (u2 & Hp2 & Hu2).
        rewrite Hp1, Hp2. cbn [bind]. apply IH.
        eapply same_graph_trans; [exact Hu1 |].
        eapply same_graph_trans; [exact Hs | apply same_graph_sym, Hu2].
      * destruct (Component_constructor dp) as [ref|e].
        -- destruct Hc1 as (u1 & Hp1 & Hu1). destruct Hc2 as (u2 & Hp2 & Hu2).
           rewrite Hp1, Hp2. cbn [bind]. apply IH.
           eapply same_graph_trans; [exact Hu1 |].
           eapply same_graph_trans; [apply same_graph_link_step, Hs |].
           apply same_graph_sym, Hu2.
        -- rewrite Hc1, Hc2. reflexivity.
    + destruct Hc1 as (u1 & Hp1 & Hu1). destruct Hc2 as (u2 & Hp2 & Hu2).
      rewrite Hp1, Hp2. cbn [bind]. apply IH.
      eapply same_graph_trans; [exact Hu1 |].
      eapply same_graph_trans; [exact Hs | apply same_graph_sym, Hu2].
Qed.

(** ** The filter and the lookups *)

Lemma filterModule_skipped (m : ModuleData) :
  skipped_edge m -> filterModule m = None.
Proof.
  unfold skipped_edge, requesterPath, dependencyPath, filterModule.
  destruct m as [[[[r0|]]|] [d|]]; cbn [issuer resource issuer_resource];
    unfold truthy_str, to_value; cbn [truthy negb];
    intros [H | [H | (r & Hr & Hp)]]; try reflexivity; try discriminate;
    try (destruct (negb (String.eqb d EmptyString)); reflexivity).
  - rewrite H. destruct (negb (String.eqb d EmptyString)); reflexivity.
  - rewrite H. reflexivity.
  - injection Hr as ->. unfold ignoredMatcher_test. cbn [Nat.eqb].
    destruct (negb (String.eqb d EmptyString)); cbn [negb]; [| reflexivity].
    destruct (negb (String.eqb r EmptyString)); cbn [negb]; [| reflexivity].
    destruct Hp as [Hp | Hp]; rewrite Hp; [reflexivity |].
    destruct (String.prefix "ignored" r); reflexivity.
Qed.

Lemma resolved_edge_lookup_fails (m : ModuleData) (requester dependency : string) :
  filterModule m = Some (requester, dependency) ->
  lookup_fails requester \/ lookup_fails dependency ->
  resolved_edge m = None.
Proof.
  intros Hf Hfail. unfold resolved_edge. rewrite Hf.
  unfold lookup_fails in Hfail.
  destruct Hfail as [[[e He] | He] | [[e He] | He]]; rewrite He;
    try reflexivity; destruct (readPkgUp requester) as [[?|]|]; reflexivity.
Qed.


(** ** The claims on the generator *)

(** C3. [findDependencyByRef] returns [undefined] for every [ref] and
    every content of the bom's dependency list: its [for ... in] loop
    ranges over the index keys, which are strings and have no [ref]. So
    [insertDependency] never reuses a holder: whenever the constructor
    of the component returns, it allocates one holder for the requester
    and one for the component and links them. *)
Theorem findDependencyByRef_always_undefined :
  (forall (b : Bom) (ref : option string), findDependencyByRef b ref = VUndefined)
  /\ (forall (b : Bom),
        Forall (fun d => string_get d "ref" = VUndefined) (for_in_keys (dependencies b)))
  /\ (forall (r dref : option string) (p : Package) (st : State),
        insertDependency r dref p st
        = match Component_constructor p with
          | Ok _ => Ok (link_step r dref p st)
          | Throw e => Throw e
          end).
Proof.
  split; [| split].
  - apply findDependencyByRef_undefined.
  - intros b. apply Forall_forall. intros d _. apply string_get_ref.
  - apply insertDependency_cases.
Qed.

(** C4. The build returns when the constructor accepts the dependency
    descriptors, and in every bom it returns the components have
    pairwise distinct canonical identities, and the dependency identity
    of every resolved module of the input belongs to exactly one
    component, however many modules share it. *)
Theorem one_component_per_identity
    (program_version : string) (modules : list ModuleData) :
  (accepts_all modules -> exists st, resolveComponents program_version modules = Ok st)
  /\ forall st, resolveComponents program_version modules = Ok st ->
       NoDup (component_identities PackageURL_toString (bom st))
       /\ forall m rp dp, m ∈ modules -> resolved_edge m = Some (rp, dp) ->
            count_identity (toPackageURL dp)
              (component_identities PackageURL_toString (bom st)) = 1.
Proof.
  split; [apply resolveComponents_returns |]. intros st Hrun.
  destruct (resolveComponents_shape program_version modules st Hrun)
    as (_ & Hcs & _ & _).
  assert (Hids : component_identities PackageURL_toString (bom st)
                 = [] ++ map (fun x => toPackageURL x.2) (first_sights modules [])).
  { unfold component_identities. rewrite Hcs, map_map. reflexivity. }
  assert (Hnd : NoDup (component_identities PackageURL_toString (bom st))).
  { rewrite Hids. apply first_sights_NoDup. constructor. }
  split; [exact Hnd |].
  intros m rp dp Hin Hm.
  apply count_identity_NoDup; [exact Hnd |].
  rewrite Hids. eapply first_sights_covers; eauto.
Qed.


(** C6. The build returns when the constructor accepts the dependency
    descriptors, and every component of a bom it returns was built by
    the constructor from the dependency-side descriptor of some resolved
    module of the input: a requester descriptor becomes a component only
    through a module that has it on the dependency side. *)
Theorem components_wrap_dependencies
    (program_version : string) (modules : list ModuleData) :
  (accepts_all modules -> exists st, resolveComponents program_version modules = Ok st)
  /\ forall st, resolveComponents program_version modules = Ok st ->
       forall c, c ∈ components (bom st) ->
         exists m rp dp, m ∈ modules /\ resolved_edge m = Some (rp, dp)
           /\ new_Component dp = Ok c.
Proof.
  split; [apply resolveComponents_returns |]. intros st Hrun c Hc.
  destruct (resolveComponents_shape program_version modules st Hrun)
    as (Hall & Hcs & _ & _).
  rewrite Hcs in Hc.
  apply list_elem_of_fmap in Hc as ([r p] & -> & Hin).
  rewrite Forall_forall in Hall. destruct (Hall _ Hin) as (ref & Href).
  destruct (first_sights_resolved _ _ _ _ Hin) as (m & rp & Hm & Hres & _).
  exists m, rp, p. split; [exact Hm |]. split; [exact Hres |].
  cbn in *. unfold new_Component, built_Component, Component_bomRef.
  rewrite Href. reflexivity.
Qed.

(** C7. A module with a missing or empty requester or dependency path, or
    whose requester path starts with ["ignored"] or ["external"], leaves
    the state as it is, whatever the descriptor lookup would answer: it
    adds no component and no relation, and the build is the build of the
    other modules. *)
Theorem skipped_edge_adds_nothing (m : ModuleData) :
  skipped_edge m ->
  forall st, processModule st m = Ok st
    /\ forall l1 l2, buildBom_loop (l1 ++ m :: l2) st = buildBom_loop (l1 ++ l2) st.
Proof.
  intros Hs.
  assert (Hp : forall st, processModule st m = Ok st).
  { intros st. unfold processModule.
    rewrite (filterModule_skipped m Hs). reflexivity. }
  intros st. split; [apply Hp |].
  intros l1 l2. rewrite !loop_app.
  destruct (buildBom_loop l1 st) as [st1|e]; cbn; [| reflexivity].
  rewrite Hp. reflexivity.
Qed.

(** C9. When the descriptor lookup of the requester or of the dependency
    of a module throws or finds nothing, the build has the outcome it
    has without that module: the module contributes nothing, the modules
    after it are processed, and the failed lookup raises no error. So
    when the constructor accepts the dependency descriptors of the other
    modules, the build returns, with the graph built from them. *)
Theorem lookup_failure_skips_edge
    (program_version : string) (l1 l2 : list ModuleData) (m : ModuleData)
    (requester dependency : string) :
  filterModule m = Some (requester, dependency) ->
  lookup_fails requester \/ lookup_fails dependency ->
  same_outcome (resolveComponents program_version (l1 ++ m :: l2))
               (resolveComponents program_version (l1 ++ l2))
  /\ (accepts_all (l1 ++ l2) ->
      exists st st',
        resolveComponents program_version (l1 ++ m :: l2) = Ok st
        /\ resolveComponents program_version (l1 ++ l2) = Ok st'
        /\ same_graph st st').
Proof.
  intros Hf Hfail.
  assert (Hsame : same_outcome (resolveComponents program_version (l1 ++ m :: l2))
                               (resolveComponents program_version (l1 ++ l2))).
  { unfold resolveComponents, buildBom. rewrite !loop_app.
    destruct (buildBom_loop l1 (initial_state (stamped_Bom program_version)))
      as [s1|e]; cbn [bind buildBom_loop]; [| reflexivity].
    pose proof (processModule_cases s1 m) as Hc.
    rewrite (resolved_edge_lookup_fails m _ _ Hf Hfail) in Hc.
    destruct Hc as (u & Hp & Hu). rewrite Hp. cbn [bind].
    apply loop_same_graph, Hu. }
  split; [exact Hsame |]. intros Hacc.
  destruct (resolveComponents_returns program_version (l1 ++ l2) Hacc) as (st' & Hrun').
  rewrite Hrun' in Hsame.
  destruct (resolveComponents program_version (l1 ++ m :: l2)) as [st|e];
    [| contradiction].
  exists st, st'. auto.
Qed.

End GeneratorFacts.

(** ** findRoots *)

Lemma is_rootNode_mark (flag : bool) (node : DependencyNode) :
  is_rootNode (mark_node flag node) = is_rootNode node.
Proof. reflexivity. Qed.

Lemma is_rootNode_spec (node : DependencyNode) :
  is_rootNode node = true
  <-> requiredBy node = []
      /\ exists location, location ∈ locations node
           /\ String_includes location "node_modules" = false.
Proof.
  unfold is_rootNode. rewrite andb_true_iff, Nat.eqb_eq, existsb_exists.
  split.
  - intros [Hr (location & Hin & Hl)]. split.
    + destruct (requiredBy node); [reflexivity | discriminate].
    + exists location. rewrite list_elem_of_In. split; [exact Hin |].
      destruct (String_includes location "node_modules"); [discriminate | reflexivity].
  - intros [Hr (location & Hin & Hl)]. split.
    + rewrite Hr. reflexivity.
    + exists location. rewrite <- list_elem_of_In. rewrite Hl. auto.
Qed.

Lemma findRoots_versions_visit_all (versions : list (string * addr)) :
  forall t, findRoots_versions versions t = visit_all (map snd versions) t.
Proof.
  induction versions as [|[v a] versions IH]; intros t; cbn; [reflexivity |].
  destruct (visitNode t a); cbn; [apply IH | reflexivity].
Qed.

Lemma visit_all_app (l1 l2 : list addr) :
  forall t, visit_all (l1 ++ l2) t = (do t' <- visit_all l1 t; visit_all l2 t').
Proof.
  induction l1 as [|a l1 IH]; intros t; cbn; [reflexivity |].
  destruct (visitNode t a); cbn; [apply IH | reflexivity].
Qed.

Lemma findRoots_names_visit_all (entries : list (string * list (string * addr))) :
  forall t, findRoots_names entries t
            = visit_all (flat_map (fun entry => map snd entry.2) entries) t.
Proof.
  induction entries as [|[n versions] entries IH]; intros t; cbn; [reflexivity |].
  rewrite visit_all_app, findRoots_versions_visit_all.
  destruct (visit_all (map snd versions) t); cbn; [apply IH | reflexivity].
Qed.

(** Visiting allocated nodes never throws: the lookup is untouched, the
    qualifying nodes are appended to the roots in visiting order, and a
    node is replaced by its marked version exactly when it is visited and
    qualifies. *)
Lemma visit_all_shape (addrs : list addr) :
  forall t, Forall (fun a => a < length (nodes t)) addrs ->
  exists t', visit_all addrs t = Ok t'
    /\ lookupMap t' = lookupMap t
    /\ length (nodes t') = length (nodes t)
    /\ roots t' = roots t ++ List.filter (root_at (nodes t)) addrs
    /\ forall a node, nodes t !! a = Some node ->
         nodes t' !! a
         = Some (if bool_decide (a ∈ addrs) && is_rootNode node
                 then mark_node true node else node).
Proof.
  induction addrs as [|a addrs IH]; intros t Hb.
  - exists t. cbn. rewrite app_nil_r. repeat split; auto.
  - apply Forall_cons in Hb as [Ha Hb].
    destruct (lookup_lt_is_Some_2 (nodes t) a Ha) as [n Hn].
    cbn [visit_all]. unfold visitNode. rewrite Hn. cbv zeta.
    cbn [List.filter]. unfold root_at at 1. rewrite Hn.
    destruct (is_rootNode n) eqn:Hroot; cbn [bind].
    + set (t1 := addRoot a (setRootPackage a true t)).
      assert (Hnodes : nodes t1 = <[a := mark_node true n]> (nodes t)).
      { subst t1. unfold addRoot, setRootPackage. rewrite Hn. reflexivity. }
      assert (Hlk : lookupMap t1 = lookupMap t).
      { subst t1. unfold addRoot, setRootPackage. rewrite Hn. reflexivity. }
      assert (Hroots : roots t1 = roots t ++ [a]).
      { subst t1. unfold addRoot, setRootPackage. rewrite Hn. reflexivity. }
      assert (Hlen : length (nodes t1) = length (nodes t)).
      { rewrite Hnodes. apply length_insert. }
      assert (Hat : forall b, root_at (nodes t1) b = root_at (nodes t) b).
      { intros b. unfold root_at. rewrite Hnodes.
        destruct (decide (a = b)) as [<- | Hne].
        - rewrite list_lookup_insert_eq by exact Ha. rewrite Hn. apply is_rootNode_mark.
        - rewrite list_lookup_insert_ne by exact Hne. reflexivity. }
      destruct (IH t1) as (t' & Hrun & Hl' & Hlen' & Hr' & Hn').
      { rewrite Hlen. exact Hb. }
      exists t'. split; [exact Hrun |]. split; [congruence |]. split; [congruence |].
      split.
      * rewrite Hr', Hroots, <- app_assoc. cbn [app]. do 2 f_equal.
        apply filter_ext. exact Hat.
      * intros b nb Hnb. destruct (decide (a = b)) as [<- | Hne].
        -- rewrite bool_decide_eq_true_2 by (apply elem_of_cons; auto).
           assert (nb = n) by congruence. subst nb. rewrite Hroot. cbn [andb].
           rewrite (Hn' a (mark_node true n)).
           ++ rewrite is_rootNode_mark, Hroot.
              destruct (bool_decide (a ∈ addrs)); reflexivity.
           ++ rewrite Hnodes. apply list_lookup_insert_eq. exact Ha.
        -- rewrite (Hn' b nb).
           ++ f_equal. destruct (is_rootNode nb); [| rewrite !andb_false_r; reflexivity].
              rewrite !andb_true_r.
              destruct (decide (b ∈ addrs)) as [Hin | Hnin].
              ** rewrite !bool_decide_eq_true_2; [reflexivity | | exact Hin].
                 apply elem_of_cons. auto.
              ** rewrite !bool_decide_eq_false_2; [reflexivity | | exact Hnin].
                 rewrite elem_of_cons. intros [? | ?]; congruence.
           ++ rewrite Hnodes. rewrite list_lookup_insert_ne by exact Hne. exact Hnb.
    + destruct (IH t Hb) as (t' & Hrun & Hl' & Hlen' & Hr' & Hn').
      exists t'. split; [exact Hrun |]. split; [exact Hl' |]. split; [exact Hlen' |].
      split; [exact Hr' |].
      intros b nb Hnb. rewrite (Hn' b nb Hnb). f_equal.
      destruct (decide (a = b)) as [<- | Hne].
      * assert (nb = n) by congruence. subst nb. rewrite Hroot, !andb_false_r. reflexivity.
      * destruct (is_rootNode nb); [| rewrite !andb_false_r; reflexivity].
        rewrite !andb_true_r.
        destruct (decide (b ∈ addrs)) as [Hin | Hnin].
        -- rewrite !bool_decide_eq_true_2; [reflexivity | | exact Hin].
           apply elem_of_cons. auto.
        -- rewrite !bool_decide_eq_false_2; [reflexivity | | exact Hnin].
           rewrite elem_of_cons. intros [? | ?]; congruence.
Qed.

(** ** The substring test and the directories of a path *)

Lemma prefix_append (s t : string) : String.prefix s (String.append s t) = true.
Proof.
  induction s as [|c s IH]; cbn; [destruct t; reflexivity |].
  destruct (ascii_dec c c); [exact IH | contradiction].
Qed.

Lemma String_includes_prefix (s sub : string) :
  String.prefix sub s = true -> String_includes s sub = true.
Proof. intros H. destruct s; cbn [String_includes]; rewrite H; reflexivity. Qed.

Lemma String_includes_append (pre s sub : string) :
  String_includes s sub = true -> String_includes (String.append pre s) sub = true.
Proof.
  intros H. induction pre as [|c pre IH]; cbn [String.append String_includes]; [exact H |].
  rewrite IH. apply orb_true_r.
Qed.

Lemma append_String (seg : string) (c : ascii) (s : string) :
  String.append (String.append seg (String c EmptyString)) s
  = String.append seg (String c s).
Proof. induction seg as [|a seg IH]; cbn; [reflexivity | rewrite IH; reflexivity]. Qed.

Lemma path_directories_includes (location : string) :
  forall segment d, In d (path_directories segment location) ->
    String_includes (String.append segment location) d = true.
Proof.
  induction location as [|c location IH]; intros segment d Hd; cbn in Hd; [contradiction |].
  destruct (is_separator c).
  - destruct Hd as [<- | Hd].
    + apply String_includes_prefix, prefix_append.
    + apply String_includes_append. cbn [String_includes].
      pose proof (IH EmptyString d Hd) as Hloc. cbn [String.append] in Hloc.
      rewrite Hloc. apply orb_true_r.
  - rewrite <- append_String. apply IH, Hd.
Qed.

(** A location inside a [node_modules] directory contains the substring,
    so a location that passes the test of line 179 is outside every such
    directory; [shim_node] shows that the converse fails. *)
Lemma inside_node_modules_includes (location : string) :
  inside_node_modules location = true ->
  String_includes location "node_modules" = true.
Proof.
  unfold inside_node_modules. rewrite existsb_exists.
  intros (d & Hd & Heq). apply String.eqb_eq in Heq. subst d.
  apply (path_directories_includes location EmptyString _ Hd).
Qed.

Lemma is_rootNode_outside_node_modules (node : DependencyNode) :
  is_rootNode node = true ->
  requiredBy node = []
  /\ exists location, location ∈ locations node /\ inside_node_modules location = false.
Proof.
  rewrite is_rootNode_spec. intros [Hr (location & Hin & Hl)].
  split; [exact Hr |]. exists location. split; [exact Hin |].
  destruct (inside_node_modules location) eqn:Hi; [| reflexivity].
  apply inside_node_modules_includes in Hi. congruence.
Qed.

(** C10 (amended). On a tree whose nodes are all allocated, [findRoots]
    does not throw, and it marks a node of the tree as a root and adds
    it to the tree's roots if and only if the node's [requiredBy] list is
    empty and at least one of its locations does not contain the
    substring [node_modules]; a node failing either condition is not
    added and is left as it was. *)
Theorem findRoots_marks_exactly (t : DependencyTree) :
  Forall (fun a => a < length (nodes t)) (tree_nodes t) ->
  exists t' added, findRoots t = Ok t'
    /\ roots t' = roots t ++ added
    /\ forall a node, a ∈ tree_nodes t -> nodes t !! a = Some node ->
         ((a ∈ added /\ nodes t' !! a = Some (mark_node true node))
          <-> (requiredBy node = []
               /\ exists location, location ∈ locations node
                    /\ String_includes location "node_modules" = false))
         /\ (is_rootNode node = false -> (a ∉ added) /\ nodes t' !! a = Some node).
Proof.
  intros Hb. unfold findRoots. rewrite findRoots_names_visit_all.
  destruct (visit_all_shape (tree_nodes t) t Hb) as (t' & Hrun & _ & _ & Hr & Hn).
  exists t', (List.filter (root_at (nodes t)) (tree_nodes t)).
  split; [exact Hrun |]. split; [exact Hr |].
  intros a node Hin Hnode.
  assert (Hadd : a ∈ List.filter (root_at (nodes t)) (tree_nodes t)
                 <-> is_rootNode node = true).
  { rewrite list_elem_of_In, filter_In, <- list_elem_of_In.
    unfold root_at. rewrite Hnode. tauto. }
  specialize (Hn a node Hnode).
  rewrite bool_decide_eq_true_2 in Hn by exact Hin. cbn [andb] in Hn.
  rewrite <- is_rootNode_spec. split.
  - split.
    + intros [Ha _]. apply Hadd, Ha.
    + intros Hroot. split; [apply Hadd, Hroot |]. rewrite Hn, Hroot. reflexivity.
  - intros Hroot. split.
    + rewrite Hadd, Hroot. discriminate.
    + rewrite Hn, Hroot. reflexivity.
Qed.

(** * The properties on the sample build *)

Lemma resolved_edge_dependency (readPkgUp : string -> result (option PkgUp))
    (m : ModuleData) (rp dp : Package) :
  resolved_edge readPkgUp m = Some (rp, dp) ->
  exists cwd pkg, readPkgUp cwd = Ok (Some pkg) /\ package pkg = dp.
Proof.
  unfold resolved_edge.
  destruct (filterModule m) as [[requester dependency]|]; [| discriminate].
  destruct (readPkgUp requester) as [[requesterPkg|]|]; try discriminate.
  destruct (readPkgUp dependency) as [[dependencyPkg|]|] eqn:Hd; try discriminate.
  intros H. injection H as _ <-. eauto.
Qed.

(** The sample constructor accepts every descriptor of the sample file
    system and gives it its identity as [bomRef]. *)
Lemma sample_Component_identity (cwd : string) (pkg : PkgUp) :
  sample_readPkgUp cwd = Ok (Some pkg) ->
  sample_Component (package pkg) = Ok (sample_identity (package pkg)).
Proof.
  unfold sample_readPkgUp.
  destruct (String.prefix "/app/node_modules/lodash/" cwd);
    [intros H; injection H as <-; reflexivity |].
  destruct (String.prefix "/app/node_modules/lib/" cwd);
    [intros H; injection H as <-; reflexivity |].
  destruct (String.prefix "/app/" cwd); [intros H; injection H as <-; reflexivity |].
  destruct (String.prefix "/broken/" cwd); discriminate.
Qed.

Lemma sample_accepts_all (modules : list ModuleData) :
  accepts_all sample_readPkgUp sample_Component modules.
Proof.
  intros m rp dp _ Hm.
  destruct (resolved_edge_dependency _ _ _ _ Hm) as (cwd & pkg & Hpkg & <-).
  eexists. exact (sample_Component_identity cwd pkg Hpkg).
Qed.


(** The example of the specification: one edge from app to lodash gives
    the component lodash and the relation app -> lodash. *)
Example build_app_uses_lodash :
  exists st, sample_resolveComponents [app_uses_lodash] = Ok st
    /\ component_identities purl_format (bom st) = [Some "pkg:npm/lodash@4.17.21"]
    /\ relations st = [(Some "pkg:npm/app@1.0.0", Some "pkg:npm/lodash@4.17.21")].
Proof. eexists. split; [vm_compute; reflexivity |]. split; reflexivity. Qed.

(** C1. The build of [app_uses_lodash] then [lib_uses_lodash] loses a
    relation: [lib_uses_lodash] passes the filter, both its endpoints
    resolve, both identities are defined, and its dependency identity
    was already seen; the output has the relation app -> lodash and no
    relation lib -> lodash. *)
Theorem relation_missing_when_dependency_seen :
  exists st, sample_resolveComponents [app_uses_lodash; lib_uses_lodash] = Ok st
    /\ resolved_edge sample_readPkgUp lib_uses_lodash = Some (pkg_lib, pkg_lodash)
    /\ sample_identity pkg_lib = Some "pkg:npm/lib@2.0.0"
    /\ sample_identity pkg_lodash = Some "pkg:npm/lodash@4.17.21"
    /\ relations st = [(Some "pkg:npm/app@1.0.0", Some "pkg:npm/lodash@4.17.21")]
    /\ (sample_identity pkg_lib, sample_identity pkg_lodash) ∉ relations st.
Proof.
  eexists. split; [vm_compute; reflexivity |].
  split; [reflexivity |]. split; [reflexivity |]. split; [reflexivity |].
  split; [reflexivity |].
  vm_compute. intros H. apply list_elem_of_In in H. destruct H as [H | []].
  discriminate H.
Qed.

(** C2. The module [app_uses_app] has both endpoints in the package app:
    the build records the relation app -> app. *)
Theorem self_loop_recorded :
  resolved_edge sample_readPkgUp app_uses_app = Some (pkg_app, pkg_app)
  /\ exists st, sample_resolveComponents [app_uses_app] = Ok st
       /\ relations st = [(Some "pkg:npm/app@1.0.0", Some "pkg:npm/app@1.0.0")].
Proof.
  split; [reflexivity |]. eexists. split; vm_compute; reflexivity.
Qed.

Lemma one_component_per_identity_witness :
  exists st, sample_resolveComponents [app_uses_lodash; lib_uses_lodash] = Ok st
    /\ NoDup (component_identities purl_format (bom st))
    /\ count_identity (sample_identity pkg_lodash)
         (component_identities purl_format (bom st)) = 1.
Proof.
  destruct (one_component_per_identity purl_format sample_readPkgUp sample_Component
              "1.0.0" [app_uses_lodash; lib_uses_lodash]) as [Hret Hsafe].
  destruct (Hret (sample_accepts_all _)) as (st & Hrun).
  destruct (Hsafe st Hrun) as [Hnd Hcount].
  exists st. split; [exact Hrun |]. split; [exact Hnd |].
  apply (Hcount lib_uses_lodash pkg_lib pkg_lodash).
  - apply elem_of_cons. right. apply elem_of_cons. left. reflexivity.
  - reflexivity.
Defined.



Lemma skipped_edge_adds_nothing_witness :
  skipped_edge external_fs
  /\ forall st,
       processModule purl_format sample_readPkgUp sample_Component st external_fs = Ok st
       /\ forall l1 l2,
            buildBom_loop purl_format sample_readPkgUp sample_Component
              (l1 ++ external_fs :: l2) st
            = buildBom_loop purl_format sample_readPkgUp sample_Component (l1 ++ l2) st.
Proof.
  assert (Hs : skipped_edge external_fs).
  { right. right. exists "external node:fs". split; [reflexivity |]. right. reflexivity. }
  split; [exact Hs |].
  apply (skipped_edge_adds_nothing purl_format sample_readPkgUp sample_Component
           external_fs Hs).
Defined.

Lemma toPackageURL_pure_witness :
  toPackageURL purl_format pkg_app
  = toPackageURL purl_format
      {| name := Some "app"; version := Some "1.0.0"; scope := None;
         fields := [("main", "index.js")] |}.
Proof.
  apply (proj2 (toPackageURL_pure purl_format)); reflexivity.
Defined.

Lemma lookup_failure_skips_edge_witness :
  filterModule broken_uses_app = Some ("/broken/src/index.js", "/app/src/index.js")
  /\ lookup_fails sample_readPkgUp "/broken/src/index.js"
  /\ exists st st',
       sample_resolveComponents ([app_uses_lodash] ++ broken_uses_app :: [app_uses_app])
       = Ok st
       /\ sample_resolveComponents ([app_uses_lodash] ++ [app_uses_app]) = Ok st'
       /\ same_graph st st'.
Proof.
  assert (Hf : lookup_fails sample_readPkgUp "/broken/src/index.js").
  { left. exists "JSONError". reflexivity. }
  split; [reflexivity |]. split; [exact Hf |].
  apply (lookup_failure_skips_edge purl_format sample_readPkgUp sample_Component "1.0.0"
           [app_uses_lodash] [app_uses_app] broken_uses_app
           "/broken/src/index.js" "/app/src/index.js").
  - reflexivity.
  - left. exact Hf.
  - apply sample_accepts_all.
Defined.

(** C6 on the sample build: the component of lodash was built from the
    dependency side of [app_uses_lodash]. *)
Lemma components_wrap_dependencies_witness :
  exists m rp dp, m ∈ [app_uses_lodash]
    /\ resolved_edge sample_readPkgUp m = Some (rp, dp)
    /\ new_Component sample_Component dp = Ok (built_Component sample_Component pkg_lodash).
Proof.
  destruct (components_wrap_dependencies purl_format sample_readPkgUp sample_Component
              "1.0.0" [app_uses_lodash]) as [Hret Hsafe].
  destruct (Hret (sample_accepts_all _)) as (st & Hrun).
  apply (Hsafe st Hrun). vm_compute in Hrun. injection Hrun as <-.
  apply elem_of_cons. left. reflexivity.
Defined.

(** ** The sample trees *)

(** C10, as stated, fails: [shim_node] is required by nothing and its
    location is not inside a [node_modules] directory, yet [findRoots]
    neither marks it nor adds it to the roots. *)
Lemma findRoots_substring_counterexample :
  tree_nodes shim_tree = [0]
  /\ nodes shim_tree !! 0 = Some shim_node
  /\ requiredBy shim_node = []
  /\ (exists location, location ∈ locations shim_node
        /\ inside_node_modules location = false)
  /\ findRoots shim_tree = Ok shim_tree
  /\ rootPackage shim_node = false
  /\ roots shim_tree = [].
Proof.
  split; [reflexivity |]. split; [reflexivity |]. split; [reflexivity |].
  split.
  - exists "/app/src/node_modules_shim.js". split; [| reflexivity].
    apply elem_of_cons. left. reflexivity.
  - split; [vm_compute; reflexivity |]. split; reflexivity.
Qed.

Lemma findRoots_marks_exactly_witness :
  Forall (fun a => a < length (nodes sample_tree)) (tree_nodes sample_tree)
  /\ exists t' added, findRoots sample_tree = Ok t'
       /\ roots t' = roots sample_tree ++ added
       /\ forall a node, a ∈ tree_nodes sample_tree ->
            nodes sample_tree !! a = Some node ->
            ((a ∈ added /\ nodes t' !! a = Some (mark_node true node))
             <-> (requiredBy node = []
                  /\ exists location, location ∈ locations node
                       /\ String_includes location "node_modules" = false))
            /\ (is_rootNode node = false ->
                (a ∉ added) /\ nodes t' !! a = Some node).
Proof.
  assert (Hb : Forall (fun a => a < length (nodes sample_tree)) (tree_nodes sample_tree)).
  { repeat constructor. }
  split; [exact Hb |].
  apply (findRoots_marks_exactly sample_tree Hb).
Defined.

(** * Further properties of the generator *)

(** ** The filter *)

(** The filter lets a module through exactly when both paths are present
    and not empty and the requester path starts with neither marker. The
    dependency path is never matched against the markers, and the second
    test of the regular expression changes nothing. *)
Theorem filterModule_Some_iff (m : ModuleData) (requester dependency : string) :
  filterModule m = Some (requester, dependency)
  <-> requesterPath m = Some requester
      /\ dependencyPath m = Some dependency
      /\ requester <> EmptyString
      /\ dependency <> EmptyString
      /\ String.prefix "ignored" requester = false
      /\ String.prefix "external" requester = false.
Proof.
  unfold filterModule, requesterPath, dependencyPath, truthy_str, to_value,
    ignoredMatcher_test.
  destruct m as [[[[r|]]|] [d|]]; cbn [issuer resource issuer_resource truthy negb Nat.eqb];
    try (split; [discriminate | intros (H1 & H2 & _); discriminate]).
  - destruct (String.eqb_spec d EmptyString) as [-> | Hd]; cbn [negb].
    { split; [discriminate |]. intros (_ & H2 & _ & H4 & _). congruence. }
    destruct (String.eqb_spec r EmptyString) as [-> | Hr]; cbn [negb].
    { split; [discriminate |]. intros (H1 & _ & H3 & _). congruence. }
    destruct (String.prefix "ignored" r) eqn:Hi.
    { split; [discriminate |]. intros (H1 & _ & _ & _ & H5 & _). congruence. }
    destruct (String.prefix "external" r) eqn:He.
    { split; [discriminate |]. intros (H1 & _ & _ & _ & _ & H6). congruence. }
    cbn. split.
    + intros H. injection H as <- <-. auto 10.
    + intros (H1 & H2 & _). injection H1 as ->. injection H2 as ->. reflexivity.
  - destruct (negb (String.eqb d EmptyString));
      split; try discriminate; intros (H1 & _); discriminate.
Qed.

(** ** The build *)

Section GeneratorMore.

Variable PackageURL_toString :
  string -> option string -> string -> option string -> string.
Variable readPkgUp : string -> result (option PkgUp).
Variable Component_constructor : Package -> result (option string).

Abbreviation toPackageURL := (toPackageURL PackageURL_toString).
Abbreviation Component_bomRef := (Component_bomRef Component_constructor).
Abbreviation built_Component := (built_Component Component_constructor).
Abbreviation processModule :=
  (processModule PackageURL_toString readPkgUp Component_constructor).
Abbreviation buildBom_loop :=
  (buildBom_loop PackageURL_toString readPkgUp Component_constructor).
Abbreviation link_step := (link_step Component_constructor).
Abbreviation resolved_edge := (resolved_edge readPkgUp).
Abbreviation first_sights := (first_sights PackageURL_toString readPkgUp).
Abbreviation accepts_all := (accepts_all readPkgUp Component_constructor).
Abbreviation resolveComponents :=
  (resolveComponents PackageURL_toString readPkgUp Component_constructor).
Abbreviation processModule_cases :=
  (processModule_cases PackageURL_toString readPkgUp Component_constructor).
Abbreviation resolveComponents_shape :=
  (resolveComponents_shape PackageURL_toString readPkgUp Component_constructor).
Abbreviation resolveComponents_returns :=
  (resolveComponents_returns PackageURL_toString readPkgUp Component_constructor).

(** A property of the graph that [link_step] keeps holds when the loop
    returns. *)
Lemma buildBom_loop_invariant (P : State -> Prop) :
  (forall st st', same_graph st st' -> P st -> P st') ->
  (forall rp dp st, P st -> P (link_step (toPackageURL rp) (toPackageURL dp) dp st)) ->
  forall modules st st', P st -> buildBom_loop modules st = Ok st' -> P st'.
Proof.
  intros Hsame Hlink. induction modules as [|m modules IH]; intros st st' HP Hrun.
  - cbn in Hrun. injection Hrun as <-. exact HP.
  - pose proof (processModule_cases st m) as Hcase.
    cbn [buildBom_loop] in Hrun.
    destruct (resolved_edge m) as [[rp dp]|].
    + destruct (includes (bomRefLookup st) (toPackageURL dp)).
      * destruct Hcase as (st1 & Hp & Hs). rewrite Hp in Hrun. cbn [bind] in Hrun.
        apply (IH st1 st'); [| exact Hrun].
        apply (Hsame st); [apply same_graph_sym, Hs | exact HP].
      * destruct (Component_constructor dp).
        -- destruct Hcase as (st1 & Hp & Hs). rewrite Hp in Hrun. cbn [bind] in Hrun.
           apply (IH st1 st'); [| exact Hrun].
           apply (Hsame (link_step (toPackageURL rp) (toPackageURL dp) dp st));
             [apply same_graph_sym, Hs | apply Hlink, HP].
        -- rewrite Hcase in Hrun. discriminate.
    + destruct Hcase as (st1 & Hp & Hs). rewrite Hp in Hrun. cbn [bind] in Hrun.
      apply (IH st1 st'); [| exact Hrun].
      apply (Hsame st); [apply same_graph_sym, Hs | exact HP].
Qed.

(** The build throws only through the constructor of line 100: it returns
    when the constructor accepts the dependency descriptor of every
    resolved module. And the metadata of every bom it returns holds the
    one tool entry that was stamped before the loop: vendor CycloneDX,
    name webpack-plugin and the plugin's version. *)
Theorem resolveComponents_returns_stamped
    (program_version : string) (modules : list ModuleData) :
  (accepts_all modules -> exists st, resolveComponents program_version modules = Ok st)
  /\ forall st, resolveComponents program_version modules = Ok st ->
       metadata (bom st) = Some {| tools := [stamped_tool program_version] |}.
Proof.
  split; [apply resolveComponents_returns |]. intros st Hrun.
  unfold resolveComponents, buildBom in Hrun.
  apply (buildBom_loop_invariant
           (fun st => metadata (bom st)
                      = Some {| tools := [stamped_tool program_version] |}))
    with (modules := modules) (st := initial_state (stamped_Bom program_version)).
  - intros s s' (Hb & _) H. rewrite <- Hb. exact H.
  - intros rp dp s H. exact H.
  - reflexivity.
  - exact Hrun.
Qed.

(** A descriptor that the constructor rejects aborts the whole build: if
    the constructor throws on the dependency descriptor of a resolved
    module whose dependency identity is seen for the first time, and
    accepted the dependency descriptors before it, the build throws that
    error, whatever modules follow. *)
Theorem rejected_dependency_aborts_build
    (program_version : string) (l1 l2 : list ModuleData) (m : ModuleData)
    (rp dp : Package) (e : string) :
  resolved_edge m = Some (rp, dp) ->
  Component_constructor dp = Throw e ->
  (forall m' rp' dp', m' ∈ l1 -> resolved_edge m' = Some (rp', dp') ->
     toPackageURL dp' <> toPackageURL dp) ->
  accepts_all l1 ->
  resolveComponents program_version (l1 ++ m :: l2) = Throw e.
Proof.
  intros Hm Hthrow Hfirst Hacc. unfold resolveComponents, buildBom.
  rewrite loop_app.
  pose proof (buildBom_loop_shape PackageURL_toString readPkgUp Component_constructor l1
                (initial_state (stamped_Bom program_version)) (heap_closed_initial _ _))
    as Hshape.
  destruct (buildBom_loop_returns PackageURL_toString readPkgUp Component_constructor l1
              (initial_state (stamped_Bom program_version)) (heap_closed_initial _ _) Hacc)
    as (st1 & Hrun1).
  rewrite Hrun1 in Hshape. rewrite Hrun1. cbn [bind buildBom_loop].
  destruct Hshape as (_ & _ & _ & _ & Hl & _). cbn [initial_state bomRefLookup app] in Hl.
  pose proof (processModule_cases st1 m) as Hcase. rewrite Hm in Hcase.
  assert (Hnew : includes (bomRefLookup st1) (toPackageURL dp) = false).
  { apply includes_not_elem_of. rewrite Hl. intros Hin.
    apply list_elem_of_fmap in Hin as ([r p] & Heq & Hin).
    destruct (first_sights_resolved _ _ _ _ _ _ Hin) as (m' & rp' & Hm' & Hres & _).
    cbn in Heq. exact (Hfirst m' rp' p Hm' Hres (eq_sym Heq)). }
  rewrite Hnew, Hthrow in Hcase. rewrite Hcase. reflexivity.
Qed.

(** In every bom the build returns, the holders come in pairs, one pair
    per component: the bom lists every allocated holder once, in
    allocation order, there are twice as many holders as components, and
    no holder lists more than one dependency. A requester of several
    packages gets one holder per package instead of one holder listing
    them all. *)
Theorem holders_come_in_pairs
    (program_version : string) (modules : list ModuleData) :
  (accepts_all modules -> exists st, resolveComponents program_version modules = Ok st)
  /\ forall st, resolveComponents program_version modules = Ok st ->
       dependencies (bom st) = seq 0 (length (heap st))
       /\ length (dependencies (bom st)) = 2 * length (components (bom st))
       /\ forall a, length (holder_links (heap st) a) <= 1.
Proof.
  split; [apply resolveComponents_returns |]. intros st Hrun.
  unfold resolveComponents, buildBom in Hrun.
  destruct (buildBom_loop_invariant
              (fun st => dependencies (bom st) = seq 0 (length (heap st))
                         /\ length (heap st) = 2 * length (components (bom st))
                         /\ Forall (fun d => length (match _dependencies d with
                                                     | Some ds => ds
                                                     | None => []
                                                     end) <= 1) (heap st)))
    with (modules := modules) (st := initial_state (stamped_Bom program_version))
         (st' := st)
    as (Hd & Hl & Hf).
  - intros s s' (Hb & Hh & _). rewrite Hb, Hh. tauto.
  - intros rp dp s (Hd & Hl & Hf). unfold link_step. cbn [bom heap dependencies components].
    rewrite !length_app. cbn [length]. split; [| split].
    + rewrite Hd, <- app_assoc. cbn [app].
      replace (length (heap s) + 1 + 1) with (S (S (length (heap s)))) by lia.
      rewrite !seq_S. cbn [Nat.add]. rewrite <- app_assoc. reflexivity.
    + lia.
    + rewrite !Forall_app. repeat split; [exact Hf | |]; repeat constructor.
  - cbn. repeat split; constructor.
  - exact Hrun.
  - split; [exact Hd |]. split.
    + rewrite Hd, length_seq. exact Hl.
    + intros a. unfold holder_links. destruct (heap st !! a) as [d|] eqn:Ha; [| cbn; lia].
      rewrite Forall_forall in Hf. apply Hf. apply list_elem_of_lookup. eauto.
Qed.

(** In every bom the build returns, every component is the target of
    exactly one relation: the targets of the relations, in order, are the
    [bomRef]s of the components. And the lookup array mirrors the
    components: it holds their identities in the same order. *)
Theorem relation_targets_are_components
    (program_version : string) (modules : list ModuleData) :
  (accepts_all modules -> exists st, resolveComponents program_version modules = Ok st)
  /\ forall st, resolveComponents program_version modules = Ok st ->
       map snd (relations st) = map bomRef (components (bom st))
       /\ bomRefLookup st = component_identities PackageURL_toString (bom st).
Proof.
  split; [apply resolveComponents_returns |]. intros st Hrun.
  destruct (resolveComponents_shape program_version modules st Hrun)
    as (_ & Hcs & Hl & Hr).
  unfold component_identities. rewrite Hr, Hcs, Hl, !map_map. split; reflexivity.
Qed.

Lemma loop_seen (modules : list ModuleData) :
  forall st,
    (forall m rp dp, m ∈ modules -> resolved_edge m = Some (rp, dp) ->
       toPackageURL dp ∈ bomRefLookup st) ->
    exists st', buildBom_loop modules st = Ok st' /\ same_graph st' st.
Proof.
  induction modules as [|m modules IH]; intros st Hseen.
  - exists st. split; [reflexivity | apply same_graph_refl].
  - pose proof (processModule_cases st m) as Hcase.
    assert (Hs1 : exists st1, processModule st m = Ok st1 /\ same_graph st1 st).
    { destruct (resolved_edge m) as [[rp dp]|] eqn:Hm; [| exact Hcase].
      assert (Hin : toPackageURL dp ∈ bomRefLookup st).
      { apply (Hseen m rp dp); [apply elem_of_cons; auto | exact Hm]. }
      apply includes_elem_of in Hin. rewrite Hin in Hcase. exact Hcase. }
    destruct Hs1 as (st1 & Hp & Hs1).
    cbn [buildBom_loop]. rewrite Hp. cbn [bind].
    destruct (IH st1) as (st' & Hrun & Hs').
    + intros m' rp dp Hin Hm'.
      destruct Hs1 as (_ & _ & Hl). rewrite Hl.
      apply (Hseen m' rp dp); [apply elem_of_cons; auto | exact Hm'].
    + exists st'. split; [exact Hrun |]. eapply same_graph_trans; eauto.
Qed.

(** Modules whose dependency identities were all seen already add
    nothing: when every resolved module of [l2] has the dependency
    identity of some resolved module of [l1], the build of [l1 ++ l2] has
    the outcome of the build of [l1]; when the constructor accepts the
    dependency descriptors of [l1], both return, with the same graph. In
    particular, feeding the same modules again changes nothing. *)
Theorem modules_already_seen_add_nothing
    (program_version : string) (l1 l2 : list ModuleData) :
  (forall m rp dp, m ∈ l2 -> resolved_edge m = Some (rp, dp) ->
     exists m' rp' dp', m' ∈ l1 /\ resolved_edge m' = Some (rp', dp')
       /\ toPackageURL dp' = toPackageURL dp) ->
  same_outcome (resolveComponents program_version (l1 ++ l2))
               (resolveComponents program_version l1)
  /\ (accepts_all l1 ->
      exists st st', resolveComponents program_version (l1 ++ l2) = Ok st
        /\ resolveComponents program_version l1 = Ok st'
        /\ same_graph st st').
Proof.
  intros Hcov.
  assert (Hsame : same_outcome (resolveComponents program_version (l1 ++ l2))
                               (resolveComponents program_version l1)).
  { unfold resolveComponents, buildBom. rewrite loop_app.
    pose proof (buildBom_loop_shape PackageURL_toString readPkgUp Component_constructor l1
                  (initial_state (stamped_Bom program_version)) (heap_closed_initial _ _))
      as Hshape.
    destruct (buildBom_loop l1 (initial_state (stamped_Bom program_version)))
      as [st1|e]; cbn [bind]; [| reflexivity].
    destruct Hshape as (_ & _ & _ & _ & Hl & _).
    destruct (loop_seen l2 st1) as (st & Hrun & Hs).
    - intros m rp dp Hin Hm.
      destruct (Hcov m rp dp Hin Hm) as (m' & rp' & dp' & Hin' & Hm' & <-).
      rewrite Hl. eapply first_sights_covers; eauto.
    - rewrite Hrun. exact Hs. }
  split; [exact Hsame |]. intros Hacc.
  destruct (resolveComponents_returns program_version l1 Hacc) as (st' & Hrun').
  rewrite Hrun' in Hsame.
  destruct (resolveComponents program_version (l1 ++ l2)) as [st|e]; [| contradiction].
  exists st, st'. auto.
Qed.

(** When no module of the input is a resolved edge (the list is empty,
    or every module is filtered out or fails a lookup), the build returns
    the stamped bom as it was: no component, no holder, no relation. *)
Theorem no_resolved_edge_empty_bom
    (program_version : string) (modules : list ModuleData) :
  (forall m, m ∈ modules -> resolved_edge m = None) ->
  exists st, resolveComponents program_version modules = Ok st
    /\ bom st = stamped_Bom program_version
    /\ components (bom st) = []
    /\ dependencies (bom st) = []
    /\ relations st = [].
Proof.
  intros Hnone. unfold resolveComponents, buildBom.
  destruct (loop_seen modules (initial_state (stamped_Bom program_version)))
    as (st & Hrun & (Hb & Hh & _)).
  - intros m rp dp Hin Hm. rewrite (Hnone m Hin) in Hm. discriminate.
  - exists st. split; [exact Hrun |]. unfold relations. rewrite Hb. cbn. auto.
Qed.

(** The identities of the components of a returned bom are the dependency
    identities of the resolved modules, no more and no less. *)
Lemma component_identities_iff
    (program_version : string) (modules : list ModuleData) (st : State) :
  resolveComponents program_version modules = Ok st ->
  forall x, x ∈ component_identities PackageURL_toString (bom st)
    <-> exists m rp dp, m ∈ modules /\ resolved_edge m = Some (rp, dp)
          /\ toPackageURL dp = x.
Proof.
  intros Hrun x.
  destruct (resolveComponents_shape program_version modules st Hrun)
    as (_ & Hcs & _ & _).
  unfold component_identities. rewrite Hcs, map_map. cbn. split.
  - intros Hin. apply list_elem_of_fmap in Hin as ([r p] & -> & Hin).
    destruct (first_sights_resolved _ _ _ _ _ _ Hin) as (m & rp & Hm & Hres & _).
    exists m, rp, p. auto.
  - intros (m & rp & dp & Hin & Hm & <-).
    apply (first_sights_covers PackageURL_toString readPkgUp modules [] m rp dp Hin Hm).
Qed.

(** The set of component identities does not depend on the order of the
    modules: two lists that are permutations of each other give boms with
    the same identities (the order of the components, and which requester
    a component is related to, do depend on it). Both builds return when
    the constructor accepts the dependency descriptors. *)
Theorem component_identities_order_independent
    (program_version : string) (modules modules' : list ModuleData) :
  modules ≡ₚ modules' ->
  (accepts_all modules ->
   exists st st', resolveComponents program_version modules = Ok st
     /\ resolveComponents program_version modules' = Ok st')
  /\ forall st st',
       resolveComponents program_version modules = Ok st ->
       resolveComponents program_version modules' = Ok st' ->
       forall x, x ∈ component_identities PackageURL_toString (bom st)
         <-> x ∈ component_identities PackageURL_toString (bom st').
Proof.
  intros Hperm. split.
  - intros Hacc.
    destruct (resolveComponents_returns program_version modules Hacc) as (st & Hrun).
    destruct (resolveComponents_returns program_version modules') as (st' & Hrun').
    + intros m rp dp Hin. apply Hacc. rewrite Hperm. exact Hin.
    + eauto.
  - intros st st' Hrun Hrun' x.
    rewrite (component_identities_iff program_version modules st Hrun),
      (component_identities_iff program_version modules' st' Hrun').
    split; intros (m & rp & dp & Hin & Hm); exists m, rp, dp;
      (split; [| exact Hm]).
    + rewrite <- Hperm. exact Hin.
    + rewrite Hperm. exact Hin.
Qed.

(** A resolved module whose dependency identity is seen for the first
    time is recorded: in every bom the build returns, the component built
    from its dependency descriptor is among the components and a holder
    of the requester identity links to the holder named by that
    component's [bomRef]. *)
Theorem first_sight_is_recorded
    (program_version : string) (l1 l2 : list ModuleData) (m : ModuleData)
    (rp dp : Package) :
  resolved_edge m = Some (rp, dp) ->
  (forall m' rp' dp', m' ∈ l1 -> resolved_edge m' = Some (rp', dp') ->
     toPackageURL dp' <> toPackageURL dp) ->
  (accepts_all (l1 ++ m :: l2) ->
   exists st, resolveComponents program_version (l1 ++ m :: l2) = Ok st)
  /\ forall st, resolveComponents program_version (l1 ++ m :: l2) = Ok st ->
       built_Component dp ∈ components (bom st)
       /\ (toPackageURL rp, Component_bomRef dp) ∈ relations st.
Proof.
  intros Hm Hfirst. split; [apply resolveComponents_returns |]. intros st Hrun.
  destruct (resolveComponents_shape program_version (l1 ++ m :: l2) st Hrun)
    as (_ & Hcs & _ & Hr).
  assert (Hin : (toPackageURL rp, dp) ∈ first_sights (l1 ++ m :: l2) []).
  { apply first_sights_first; [exact Hm | | exact Hfirst]. intros H; inversion H. }
  rewrite Hcs, Hr. split.
  - apply list_elem_of_fmap. exists (toPackageURL rp, dp). split; [reflexivity | exact Hin].
  - apply list_elem_of_fmap. exists (toPackageURL rp, dp). split; [reflexivity | exact Hin].
Qed.

(** A descriptor without a name is not skipped on the requester side: a
    resolved module whose requester has no name and whose dependency
    identity is seen for the first time still adds the component of the
    dependency and records a relation, whose source reference is
    [undefined]. *)
Theorem nameless_requester_still_related
    (program_version : string) (l1 l2 : list ModuleData) (m : ModuleData)
    (rp dp : Package) :
  resolved_edge m = Some (rp, dp) ->
  name rp = None ->
  (forall m' rp' dp', m' ∈ l1 -> resolved_edge m' = Some (rp', dp') ->
     toPackageURL dp' <> toPackageURL dp) ->
  (accepts_all (l1 ++ m :: l2) ->
   exists st, resolveComponents program_version (l1 ++ m :: l2) = Ok st)
  /\ forall st, resolveComponents program_version (l1 ++ m :: l2) = Ok st ->
       built_Component dp ∈ components (bom st)
       /\ (None, Component_bomRef dp) ∈ relations st.
Proof.
  intros Hm Hname Hfirst. split; [apply resolveComponents_returns |]. intros st Hrun.
  destruct (resolveComponents_shape program_version (l1 ++ m :: l2) st Hrun)
    as (_ & Hcs & _ & Hr).
  assert (Hin : (toPackageURL rp, dp) ∈ first_sights (l1 ++ m :: l2) []).
  { apply first_sights_first; [exact Hm | | exact Hfirst]. intros H; inversion H. }
  assert (Hnone : toPackageURL rp = None).
  { unfold toPackageURL. rewrite Hname. reflexivity. }
  rewrite Hnone in Hin. rewrite Hcs, Hr. split.
  - apply list_elem_of_fmap. exists (None, dp). split; [reflexivity | exact Hin].
  - apply list_elem_of_fmap. exists (None, dp). split; [reflexivity | exact Hin].
Qed.

(** No relation is invented: every relation of a returned bom comes from
    a resolved module of the input, its source being the identity of that
    module's requester and its target the [bomRef] of the component made
    from that module's dependency. *)
Theorem relations_come_from_modules
    (program_version : string) (modules : list ModuleData) :
  (accepts_all modules -> exists st, resolveComponents program_version modules = Ok st)
  /\ forall st, resolveComponents program_version modules = Ok st ->
       forall a b, (a, b) ∈ relations st ->
         exists m rp dp, m ∈ modules
           /\ resolved_edge m = Some (rp, dp)
           /\ a = toPackageURL rp
           /\ b = Component_bomRef dp.
Proof.
  split; [apply resolveComponents_returns |]. intros st Hrun a b Hin.
  destruct (resolveComponents_shape program_version modules st Hrun)
    as (_ & _ & _ & Hr).
  rewrite Hr in Hin.
  apply list_elem_of_fmap in Hin as ([r p] & Heq & Hin). cbn in Heq.
  injection Heq as -> ->.
  destruct (first_sights_resolved _ _ _ _ _ _ Hin) as (m & rp & Hm & Hres & ->).
  exists m, rp, p. auto.
Qed.

(** ** The console *)

Lemma relatePackages_console (requesterPkg dependencyPkg : PkgUp) (st st1 : State) :
  relatePackages PackageURL_toString Component_constructor requesterPkg dependencyPkg st
  = Ok st1 ->
  exists l, console st1 = console st ++ l.
Proof.
  unfold relatePackages. cbv zeta.
  set (st0 := if _ : bool then console_log _ st else st).
  assert (H0 : exists l, console st0 = console st ++ l).
  { subst st0. destruct (_ || _); [eexists; reflexivity |].
    exists []. rewrite app_nil_r. reflexivity. }
  destruct H0 as (l & Hl).
  destruct (includes (bomRefLookup st0) _).
  - intros H. injection H as <-. eauto.
  - rewrite insertDependency_cases.
    destruct (Component_constructor (package dependencyPkg)); [| discriminate].
    intros H. injection H as <-. exists l. exact Hl.
Qed.

Lemma processModule_console (st st1 : State) (m : ModuleData) :
  processModule st m = Ok st1 -> exists l, console st1 = console st ++ l.
Proof.
  assert (Hnil : forall s, Ok st = Ok s -> exists l, console s = console st ++ l).
  { intros s H. injection H as <-. exists []. rewrite app_nil_r. reflexivity. }
  assert (Hlog : forall e s, Ok (console_log e st) = Ok s ->
             exists l, console s = console st ++ l).
  { intros e s H. injection H as <-. exists [e]. reflexivity. }
  unfold processModule.
  destruct (filterModule m) as [[requester dependency]|]; [| apply Hnil].
  unfold lookupPackages.
  destruct (readPkgUp requester) as [[requesterPkg|]|e]; [| | apply Hlog];
    destruct (readPkgUp dependency) as [[dependencyPkg|]|e'];
    try apply Hnil; try apply Hlog.
  apply relatePackages_console.
Qed.

Lemma loop_console (modules : list ModuleData) :
  forall st st', buildBom_loop modules st = Ok st' ->
    exists l, console st' = console st ++ l.
Proof.
  induction modules as [|m modules IH]; intros st st' Hrun.
  - cbn in Hrun. injection Hrun as <-. exists []. rewrite app_nil_r. reflexivity.
  - cbn [buildBom_loop] in Hrun.
    destruct (processModule st m) as [st1|e] eqn:Hp; [| discriminate].
    cbn [bind] in Hrun.
    destruct (processModule_console st st1 m Hp) as (l1 & Hc1).
    destruct (IH st1 st' Hrun) as (l & Hc).
    exists (l1 ++ l). rewrite Hc, Hc1, app_assoc. reflexivity.
Qed.

Lemma processModule_logs_throw (st : State) (m : ModuleData)
    (requester dependency err : string) :
  filterModule m = Some (requester, dependency) ->
  readPkgUp requester = Throw err
  \/ ((exists requesterPkg, readPkgUp requester = Ok requesterPkg)
      /\ readPkgUp dependency = Throw err) ->
  processModule st m = Ok (console_log err st).
Proof.
  intros Hf Hthrow. unfold processModule, lookupPackages. rewrite Hf.
  destruct Hthrow as [Hr | [[requesterPkg Hr] Hd]]; rewrite Hr; [reflexivity |].
  rewrite Hd. destruct requesterPkg; reflexivity.
Qed.

(** An error thrown by a descriptor lookup is not lost: when the lookup
    of the requester throws, or the lookup of the requester returns and
    the lookup of the dependency throws, the error is written to the
    console and is in the console of every state the build returns. The
    build returns when the constructor accepts the dependency
    descriptors. *)
Theorem thrown_lookup_error_is_logged
    (program_version : string) (l1 l2 : list ModuleData) (m : ModuleData)
    (requester dependency err : string) :
  filterModule m = Some (requester, dependency) ->
  readPkgUp requester = Throw err
  \/ ((exists requesterPkg, readPkgUp requester = Ok requesterPkg)
      /\ readPkgUp dependency = Throw err) ->
  (accepts_all (l1 ++ m :: l2) ->
   exists st, resolveComponents program_version (l1 ++ m :: l2) = Ok st)
  /\ forall st, resolveComponents program_version (l1 ++ m :: l2) = Ok st ->
       err ∈ console st.
Proof.
  intros Hf Hthrow. split; [apply resolveComponents_returns |]. intros st Hrun.
  unfold resolveComponents, buildBom in Hrun. rewrite loop_app in Hrun.
  destruct (buildBom_loop l1 (initial_state (stamped_Bom program_version)))
    as [st1|e]; [| discriminate].
  cbn [bind buildBom_loop] in Hrun.
  rewrite (processModule_logs_throw st1 m _ _ _ Hf Hthrow) in Hrun. cbn [bind] in Hrun.
  destruct (loop_console l2 _ _ Hrun) as (c & Hc).
  rewrite Hc. cbn [console_log console].
  rewrite !elem_of_app, list_elem_of_singleton. auto.
Qed.


End GeneratorMore.

(** ** isComponentInBom *)

Lemma string_get_bomRef (c : string) : string_get c "bomRef" = VUndefined.
Proof.
  unfold string_get. simpl. destruct (is_index_key c "bomRef"); reflexivity.
Qed.

Lemma isComponentInBom_loop_spec (keys : list string) (bomRef : option string) :
  isComponentInBom_loop keys bomRef = true <-> keys <> [] /\ bomRef = None.
Proof.
  induction keys as [|c keys IH]; cbn [isComponentInBom_loop].
  - split; [discriminate | intros [H _]; congruence].
  - rewrite string_get_bomRef. destruct bomRef as [s|]; cbn [to_value value_eqb].
    + rewrite IH. split; intros [_ H]; discriminate.
    + split; [intros _; split; [discriminate | reflexivity] | reflexivity].
Qed.

(** [isComponentInBom] does not look at the components: it answers [true]
    exactly when the bom has some component and the module has no
    identity (its name is absent or empty). For a module with a name it
    answers [false] even when the component of that very module is in
    the bom. *)
Theorem isComponentInBom_iff
    (PackageURL_toString : string -> option string -> string -> option string -> string)
    (b : Bom) (module : Package) :
  isComponentInBom PackageURL_toString b module = true
  <-> components b <> [] /\ toPackageURL PackageURL_toString module = None.
Proof.
  unfold isComponentInBom. cbv zeta. rewrite isComponentInBom_loop_spec.
  unfold for_in_keys. destruct (components b); cbn; split; intros [H1 H2];
    split; try exact H2; congruence.
Qed.

(** ** findRoots once more *)

Lemma tree_nodes_lookupMap (t t' : DependencyTree) :
  lookupMap t' = lookupMap t -> tree_nodes t' = tree_nodes t.
Proof. intros H. unfold tree_nodes. rewrite H. reflexivity. Qed.

(** [findRoots] changes nothing but marks and roots: the lookup and the
    number of nodes stay, every node keeps its [requiredBy] list and its
    locations, and a node that was marked stays marked. *)
Theorem findRoots_preserves (t : DependencyTree) :
  Forall (fun a => a < length (nodes t)) (tree_nodes t) ->
  exists t', findRoots t = Ok t'
    /\ lookupMap t' = lookupMap t
    /\ length (nodes t') = length (nodes t)
    /\ forall a node, nodes t !! a = Some node ->
         exists node', nodes t' !! a = Some node'
           /\ requiredBy node' = requiredBy node
           /\ locations node' = locations node
           /\ (rootPackage node = true -> rootPackage node' = true).
Proof.
  intros Hb. unfold findRoots. rewrite findRoots_names_visit_all.
  destruct (visit_all_shape (tree_nodes t) t Hb) as (t' & Hrun & Hl & Hlen & _ & Hn).
  exists t'. split; [exact Hrun |]. split; [exact Hl |]. split; [exact Hlen |].
  intros a node Hnode. rewrite (Hn a node Hnode).
  destruct (bool_decide (a ∈ tree_nodes t) && is_rootNode node);
    eexists; split; try reflexivity; cbn; auto.
Qed.

(** Running [findRoots] on its own result marks nothing new: the nodes
    and the lookup after the second run are those after the first. *)
Theorem findRoots_twice_same_nodes (t : DependencyTree) :
  Forall (fun a => a < length (nodes t)) (tree_nodes t) ->
  exists t' t'', findRoots t = Ok t' /\ findRoots t' = Ok t''
    /\ nodes t'' = nodes t' /\ lookupMap t'' = lookupMap t'.
Proof.
  intros Hb.
  destruct (visit_all_shape (tree_nodes t) t Hb) as (t' & Hrun & Hl & Hlen & _ & Hn).
  assert (Hb' : Forall (fun a => a < length (nodes t')) (tree_nodes t')).
  { rewrite (tree_nodes_lookupMap t t' Hl), Hlen. exact Hb. }
  destruct (visit_all_shape (tree_nodes t') t' Hb') as (t'' & Hrun' & Hl' & Hlen' & _ & Hn').
  exists t', t''. unfold findRoots. rewrite !findRoots_names_visit_all.
  split; [exact Hrun |]. split; [exact Hrun' |]. split; [| exact Hl'].
  apply list_eq. intros a.
  destruct (nodes t !! a) as [node|] eqn:Hnode.
  - specialize (Hn a node Hnode). rewrite (Hn' a _ Hn), Hn.
    rewrite (tree_nodes_lookupMap t t' Hl).
    destruct (bool_decide (a ∈ tree_nodes t)); cbn [andb]; [| reflexivity].
    destruct (is_rootNode node) eqn:Hroot.
    + rewrite is_rootNode_mark, Hroot. reflexivity.
    + rewrite Hroot. reflexivity.
  - apply lookup_ge_None in Hnode.
    rewrite (proj2 (lookup_ge_None (nodes t') a)) by lia.
    rewrite (proj2 (lookup_ge_None (nodes t'') a)) by lia. reflexivity.
Qed.

(** Vendored packages are never roots: every node that [findRoots] adds
    to the roots is required by nothing and has a location that lies in
    no [node_modules] directory, whether the path is written with [/] or
    with backslashes. *)
Theorem findRoots_adds_no_vendored_node (t : DependencyTree) :
  Forall (fun a => a < length (nodes t)) (tree_nodes t) ->
  exists t' added, findRoots t = Ok t'
    /\ roots t' = roots t ++ added
    /\ forall a, a ∈ added ->
         exists node, nodes t !! a = Some node
           /\ requiredBy node = []
           /\ exists location, location ∈ locations node
                /\ inside_node_modules location = false.
Proof.
  intros Hb. unfold findRoots. rewrite findRoots_names_visit_all.
  destruct (visit_all_shape (tree_nodes t) t Hb) as (t' & Hrun & _ & _ & Hr & _).
  exists t', (List.filter (root_at (nodes t)) (tree_nodes t)).
  split; [exact Hrun |]. split; [exact Hr |].
  intros a Ha. apply list_elem_of_In, filter_In in Ha as [_ Hroot].
  unfold root_at in Hroot. destruct (nodes t !! a) as [node|]; [| discriminate].
  exists node. split; [reflexivity |]. apply is_rootNode_outside_node_modules, Hroot.
Qed.


(** * The further properties on the sample build *)

Lemma resolveComponents_returns_stamped_witness :
  exists st, sample_resolveComponents [app_uses_lodash; app_uses_app] = Ok st
    /\ metadata (bom st) = Some {| tools := [stamped_tool "1.0.0"] |}.
Proof.
  destruct (resolveComponents_returns_stamped purl_format sample_readPkgUp sample_Component
              "1.0.0" [app_uses_lodash; app_uses_app]) as [Hret Hsafe].
  destruct (Hret (sample_accepts_all _)) as (st & Hrun).
  exists st. split; [exact Hrun | exact (Hsafe st Hrun)].
Defined.

Lemma nameless_accepts_lodash :
  accepts_all nameless_readPkgUp sample_Component [app_uses_lodash].
Proof.
  intros m rp dp Hin Hm.
  apply elem_of_cons in Hin as [-> | Hin]; [| exfalso; exact (not_elem_of_nil _ Hin)].
  vm_compute in Hm. injection Hm as <- <-. eexists. reflexivity.
Defined.

Lemma rejected_dependency_aborts_build_witness :
  resolved_edge nameless_readPkgUp app_uses_anon = Some (pkg_app, pkg_nameless)
  /\ sample_Component pkg_nameless = Throw "ReferenceError: Name is required"
  /\ resolveComponents purl_format nameless_readPkgUp sample_Component "1.0.0"
       ([app_uses_lodash] ++ app_uses_anon :: [app_uses_app])
     = Throw "ReferenceError: Name is required".
Proof.
  split; [reflexivity |]. split; [reflexivity |].
  apply (rejected_dependency_aborts_build purl_format nameless_readPkgUp sample_Component
           "1.0.0" [app_uses_lodash] [app_uses_app] app_uses_anon pkg_app pkg_nameless).
  - reflexivity.
  - reflexivity.
  - intros m' rp' dp' Hin Hm'.
    apply elem_of_cons in Hin as [-> | Hin]; [| exfalso; exact (not_elem_of_nil _ Hin)].
    vm_compute in Hm'. injection Hm' as <- <-. discriminate.
  - exact nameless_accepts_lodash.
Defined.

Lemma holders_come_in_pairs_witness :
  exists st, sample_resolveComponents [app_uses_lodash; app_uses_app] = Ok st
    /\ dependencies (bom st) = seq 0 (length (heap st))
    /\ length (dependencies (bom st)) = 2 * length (components (bom st))
    /\ forall a, length (holder_links (heap st) a) <= 1.
Proof.
  destruct (holders_come_in_pairs purl_format sample_readPkgUp sample_Component
              "1.0.0" [app_uses_lodash; app_uses_app]) as [Hret Hsafe].
  destruct (Hret (sample_accepts_all _)) as (st & Hrun).
  exists st. split; [exact Hrun | exact (Hsafe st Hrun)].
Defined.

Lemma relation_targets_are_components_witness :
  exists st, sample_resolveComponents [app_uses_lodash; app_uses_app] = Ok st
    /\ map snd (relations st) = map bomRef (components (bom st))
    /\ bomRefLookup st = component_identities purl_format (bom st).
Proof.
  destruct (relation_targets_are_components purl_format sample_readPkgUp sample_Component
              "1.0.0" [app_uses_lodash; app_uses_app]) as [Hret Hsafe].
  destruct (Hret (sample_accepts_all _)) as (st & Hrun).
  exists st. split; [exact Hrun | exact (Hsafe st Hrun)].
Defined.

Lemma modules_already_seen_add_nothing_witness :
  exists st st',
    sample_resolveComponents ([app_uses_lodash] ++ [lib_uses_lodash; app_uses_lodash]) = Ok st
    /\ sample_resolveComponents [app_uses_lodash] = Ok st'
    /\ same_graph st st'.
Proof.
  apply (modules_already_seen_add_nothing purl_format sample_readPkgUp sample_Component
           "1.0.0" [app_uses_lodash] [lib_uses_lodash; app_uses_lodash]).
  - intros m rp dp Hin Hm.
    exists app_uses_lodash, pkg_app, pkg_lodash.
    split; [apply elem_of_cons; left; reflexivity |]. split; [reflexivity |].
    apply elem_of_cons in Hin as [-> | Hin].
    + vm_compute in Hm. injection Hm as <- <-. reflexivity.
    + apply elem_of_cons in Hin as [-> | Hin].
      * vm_compute in Hm. injection Hm as <- <-. reflexivity.
      * exfalso. exact (not_elem_of_nil _ Hin).
  - apply sample_accepts_all.
Defined.

Lemma no_resolved_edge_empty_bom_witness :
  exists st, sample_resolveComponents [external_fs; broken_uses_app] = Ok st
    /\ bom st = stamped_Bom "1.0.0"
    /\ components (bom st) = []
    /\ dependencies (bom st) = []
    /\ relations st = [].
Proof.
  apply (no_resolved_edge_empty_bom purl_format sample_readPkgUp sample_Component
           "1.0.0" [external_fs; broken_uses_app]).
  intros m Hin.
  apply elem_of_cons in Hin as [-> | Hin]; [reflexivity |].
  apply elem_of_cons in Hin as [-> | Hin]; [reflexivity |].
  exfalso. exact (not_elem_of_nil _ Hin).
Defined.

Lemma component_identities_order_independent_witness :
  [app_uses_app; app_uses_lodash] ≡ₚ [app_uses_lodash; app_uses_app]
  /\ exists st st',
       sample_resolveComponents [app_uses_app; app_uses_lodash] = Ok st
       /\ sample_resolveComponents [app_uses_lodash; app_uses_app] = Ok st'
       /\ forall x, x ∈ component_identities purl_format (bom st)
            <-> x ∈ component_identities purl_format (bom st').
Proof.
  assert (Hperm : [app_uses_app; app_uses_lodash] ≡ₚ [app_uses_lodash; app_uses_app])
    by apply perm_swap.
  split; [exact Hperm |].
  destruct (component_identities_order_independent purl_format sample_readPkgUp
              sample_Component "1.0.0" _ _ Hperm) as [Hret Hsafe].
  destruct (Hret (sample_accepts_all _)) as (st & st' & Hrun & Hrun').
  exists st, st'. split; [exact Hrun |]. split; [exact Hrun' |].
  exact (Hsafe st st' Hrun Hrun').
Defined.

Lemma first_sight_is_recorded_witness :
  resolved_edge sample_readPkgUp app_uses_lodash = Some (pkg_app, pkg_lodash)
  /\ exists st,
       sample_resolveComponents ([] ++ app_uses_lodash :: [lib_uses_lodash]) = Ok st
       /\ built_Component sample_Component pkg_lodash ∈ components (bom st)
       /\ (sample_identity pkg_app, Component_bomRef sample_Component pkg_lodash)
            ∈ relations st.
Proof.
  split; [reflexivity |].
  destruct (first_sight_is_recorded purl_format sample_readPkgUp sample_Component
              "1.0.0" [] [lib_uses_lodash] app_uses_lodash pkg_app pkg_lodash)
    as [Hret Hsafe].
  - reflexivity.
  - intros m' rp' dp' H. exfalso. exact (not_elem_of_nil _ H).
  - destruct (Hret (sample_accepts_all _)) as (st & Hrun).
    exists st. split; [exact Hrun | exact (Hsafe st Hrun)].
Defined.

Lemma nameless_accepts_anon_uses_lodash :
  accepts_all nameless_readPkgUp sample_Component ([] ++ anon_uses_lodash :: []).
Proof.
  intros m rp dp Hin Hm.
  apply elem_of_cons in Hin as [-> | Hin]; [| exfalso; exact (not_elem_of_nil _ Hin)].
  vm_compute in Hm. injection Hm as <- <-. eexists. reflexivity.
Defined.

Lemma nameless_requester_still_related_witness :
  resolved_edge nameless_readPkgUp anon_uses_lodash = Some (pkg_nameless, pkg_lodash)
  /\ name pkg_nameless = None
  /\ exists st,
       resolveComponents purl_format nameless_readPkgUp sample_Component "1.0.0"
         ([] ++ anon_uses_lodash :: []) = Ok st
       /\ built_Component sample_Component pkg_lodash ∈ components (bom st)
       /\ (None, Component_bomRef sample_Component pkg_lodash) ∈ relations st.
Proof.
  split; [reflexivity |]. split; [reflexivity |].
  destruct (nameless_requester_still_related purl_format nameless_readPkgUp sample_Component
              "1.0.0" [] [] anon_uses_lodash pkg_nameless pkg_lodash) as [Hret Hsafe].
  - reflexivity.
  - reflexivity.
  - intros m' rp' dp' H. exfalso. exact (not_elem_of_nil _ H).
  - destruct (Hret nameless_accepts_anon_uses_lodash) as (st & Hrun).
    exists st. split; [exact Hrun | exact (Hsafe st Hrun)].
Defined.

Lemma relations_come_from_modules_witness :
  exists m rp dp, m ∈ [app_uses_lodash]
    /\ resolved_edge sample_readPkgUp m = Some (rp, dp)
    /\ Some "pkg:npm/app@1.0.0" = toPackageURL purl_format rp
    /\ Some "pkg:npm/lodash@4.17.21" = Component_bomRef sample_Component dp.
Proof.
  destruct (relations_come_from_modules purl_format sample_readPkgUp sample_Component
              "1.0.0" [app_uses_lodash]) as [Hret Hsafe].
  destruct (Hret (sample_accepts_all _)) as (st & Hrun).
  apply (Hsafe st Hrun). vm_compute in Hrun. injection Hrun as <-.
  apply elem_of_cons. left. reflexivity.
Defined.

Lemma thrown_lookup_error_is_logged_witness :
  filterModule broken_uses_app = Some ("/broken/src/index.js", "/app/src/index.js")
  /\ sample_readPkgUp "/broken/src/index.js" = Throw "JSONError"
  /\ exists st,
       sample_resolveComponents ([app_uses_lodash] ++ broken_uses_app :: [app_uses_app]) = Ok st
       /\ "JSONError" ∈ console st.
Proof.
  split; [reflexivity |]. split; [reflexivity |].
  destruct (thrown_lookup_error_is_logged purl_format sample_readPkgUp sample_Component
              "1.0.0" [app_uses_lodash] [app_uses_app] broken_uses_app
              "/broken/src/index.js" "/app/src/index.js" "JSONError") as [Hret Hsafe].
  - reflexivity.
  - left. reflexivity.
  - destruct (Hret (sample_accepts_all _)) as (st & Hrun).
    exists st. split; [exact Hrun | exact (Hsafe st Hrun)].
Defined.



Lemma sample_tree_allocated :
  Forall (fun a => a < length (nodes sample_tree)) (tree_nodes sample_tree).
Proof. repeat constructor. Defined.

Lemma findRoots_preserves_witness :
  exists t', findRoots sample_tree = Ok t'
    /\ lookupMap t' = lookupMap sample_tree
    /\ length (nodes t') = length (nodes sample_tree)
    /\ forall a node, nodes sample_tree !! a = Some node ->
         exists node', nodes t' !! a = Some node'
           /\ requiredBy node' = requiredBy node
           /\ locations node' = locations node
           /\ (rootPackage node = true -> rootPackage node' = true).
Proof. apply (findRoots_preserves sample_tree sample_tree_allocated). Defined.

Lemma findRoots_twice_same_nodes_witness :
  exists t' t'', findRoots sample_tree = Ok t' /\ findRoots t' = Ok t''
    /\ nodes t'' = nodes t' /\ lookupMap t'' = lookupMap t'.
Proof. apply (findRoots_twice_same_nodes sample_tree sample_tree_allocated). Defined.

Lemma findRoots_adds_no_vendored_node_witness :
  exists t' added, findRoots sample_tree = Ok t'
    /\ roots t' = roots sample_tree ++ added
    /\ forall a, a ∈ added ->
         exists node, nodes sample_tree !! a = Some node
           /\ requiredBy node = []
           /\ exists location, location ∈ locations node
                /\ inside_node_modules location = false.
Proof. apply (findRoots_adds_no_vendored_node sample_tree sample_tree_allocated). Defined.
